(** * Tennis dashboard: data loading, joins, filter state and top-10

    A shallow embedding of [Tennis_game.py].  The script is a Streamlit page
    that is re-run from top to bottom on every user interaction.  The parts
    embedded here are the ones that decide which tables are handed to the
    widgets: [get_connection], [fetch_table], the three guarded [pd.merge]
    calls, the session-state transitions behind the two sidebar buttons, the
    two filters and the top-10 selection.  The widgets themselves ([st.*],
    [px.*]) and the database driver are outside: the driver is an input of the
    model, the widgets receive the resulting tables. *)

From Stdlib Require Import List String ZArith Bool Lia Permutation Sorted.
Import ListNotations.
Local Open Scope string_scope.
Local Open Scope list_scope.

(** ** Cell values

    What a cell of a fetched table holds: SQL NULL (Python [None], pandas
    [NaN]), an integer or a string.  The integers are those of MySQL's
    integer column types; a whole number that pandas keeps as a float ([3.0]
    in a column with nulls) is the [VInt] of that number, since Python
    compares, orders and tests it like the integer.  The cells of a frame are
    the values as the frame keeps them (see [stored] below). *)

Inductive value : Type :=
| VNull
| VInt (z : Z)
| VStr (s : string).

Definition value_eqb (a b : value) : bool :=
  match a, b with
  | VNull, VNull => true
  | VInt x, VInt y => Z.eqb x y
  | VStr s, VStr t => String.eqb s t
  | _, _ => false
  end.

(** Python truthiness, as used by [if x and ...]. *)
Definition truthy (v : value) : bool :=
  match v with
  | VNull => false
  | VInt z => negb (Z.eqb z 0%Z)
  | VStr s => negb (String.eqb s "")
  end.

(** [pd.isna]. *)
Definition isna (v : value) : bool :=
  match v with
  | VNull => true
  | _ => false
  end.

(** Python's [<=] between two cells of the same kind.  Between an integer and
    a string Python raises [TypeError]; [comparable] below is the test that
    keeps [sort_values] away from that case. *)
Definition value_le (a b : value) : bool :=
  match a, b with
  | VInt x, VInt y => Z.leb x y
  | VStr s, VStr t => String.leb s t
  | _, _ => false
  end.

Definition is_int (v : value) : bool :=
  match v with
  | VInt _ => true
  | _ => false
  end.

Definition is_str (v : value) : bool :=
  match v with
  | VStr _ => true
  | _ => false
  end.

Definition comparable (l : list value) : bool :=
  forallb is_int l || forallb is_str l.

(** ** Exceptions

    The exceptions the embedded code can meet: [KeyError] from a column
    lookup, [TypeError] from ordering an integer against a string, the
    driver's [pymysql.Error], the [ValueError] of [pd.merge] (with the key
    it names) and its [MergeError], and [RuntimeError] for what the driver
    raises outside its own error classes. *)

Inductive exn : Type :=
| KeyError (key : string)
| TypeError
| PymysqlError (msg : string)
| ValueError (key : string)
| MergeError
| RuntimeError (msg : string).

Inductive result (A : Type) : Type :=
| Ok (a : A)
| Raise (e : exn).

Arguments Ok {A} a.
Arguments Raise {A} e.

Definition bind {A B : Type} (m : result A) (k : A -> result B) : result B :=
  match m with
  | Ok a => k a
  | Raise e => Raise e
  end.

Notation "x <- m ;; k" := (bind m (fun x => k))
  (at level 61, m at next level, right associativity).

(** ** Data frames

    A frame is its column labels and its rows, each row holding one cell per
    column, in column order. *)

Definition row : Type := list value.

Record DataFrame : Type := {
  columns : list string;
  rows : list row
}.

(** A row as the cursor returns it ([DictCursor]): a Python dict, keys in
    insertion order. *)
Definition record : Type := list (string * value).

(** [pd.DataFrame()] *)
Definition DataFrame_nil : DataFrame := {| columns := []; rows := [] |}.

(** [df.empty]: true when either axis has length 0. *)
Definition empty (df : DataFrame) : bool :=
  match columns df, rows df with
  | [], _ => true
  | _, [] => true
  | _, _ => false
  end.

(** [df.copy()] *)
Definition copy (df : DataFrame) : DataFrame :=
  {| columns := columns df; rows := rows df |}.

Definition mem (c : string) (cols : list string) : bool :=
  existsb (String.eqb c) cols.

Definition get (r : record) (c : string) : value :=
  match find (fun kv => String.eqb (fst kv) c) r with
  | Some kv => snd kv
  | None => VNull
  end.

Definition add_keys (acc : list string) (r : record) : list string :=
  fold_left (fun acc k => if mem k acc then acc else acc ++ [k]) (map fst r) acc.

(** *** Column types

    pandas keeps a column of integers as [int64], a column of integers and
    nulls as [float64] (the nulls as [NaN], each integer as the nearest
    double), and every other column as Python objects, unchanged.  A column
    of nothing but nulls is a column of [None] objects: a [DictCursor] gives
    every row of one result the same keys, so no null of it stands for a
    missing key. *)

Definition has_int (vs : list value) : bool := existsb is_int vs.
Definition has_str (vs : list value) : bool := existsb is_str vs.
Definition has_null (vs : list value) : bool := existsb isna vs.

Inductive dtype : Type := Int64 | Float64 | Object.

Definition dtype_of (vs : list value) : dtype :=
  if has_str vs then Object
  else if has_int vs then (if has_null vs then Float64 else Int64)
  else Object.

(** The integer a double holds after [float(z)]: [z] itself up to 2^53,
    beyond that [z] rounded to 53 significant bits, ties to even. *)
Definition to_float64 (z : Z) : Z :=
  let a := Z.abs z in
  if Z.ltb a (2 ^ 53) then z
  else
    let e := (Z.log2 a - 52)%Z in
    let q := Z.shiftr a e in
    let r := (a - Z.shiftl q e)%Z in
    let half := Z.shiftl 1 (e - 1) in
    let q' := if Z.ltb half r || (Z.eqb r half && Z.odd q) then (q + 1)%Z else q in
    (Z.sgn z * Z.shiftl q' e)%Z.

Definition as_float64 (v : value) : value :=
  match v with
  | VInt z => VInt (to_float64 z)
  | _ => v
  end.

(** A cell as it is kept in a column holding the values [column]. *)
Definition stored (column : list value) (v : value) : value :=
  match dtype_of column with
  | Float64 => as_float64 v
  | _ => v
  end.

(** [pd.DataFrame(result)] for a list of dicts: the columns are the keys in
    order of first appearance, a key missing from a dict gives a null cell,
    and each column gets its type from the values it holds. *)
Definition DataFrame_of (result : list record) : DataFrame :=
  let cols := fold_left add_keys result [] in
  {| columns := cols;
     rows := map (fun r =>
                    map (fun c => stored (map (fun r' => get r' c) result) (get r c))
                        cols)
                 result |}.

(** ** Database access (lines 6-45) *)

(** An open connection, seen through the one thing the script does with it:
    [cursor.execute(query); cursor.fetchall()]. *)
Definition Connection : Type := string -> result (list record).

(** [get_connection]: [connect] is the outcome of [pymysql.connect(...)].
    Only [pymysql.Error] is caught and turned into [None]. *)
Definition get_connection (connect : result Connection) : result (option Connection) :=
  match connect with
  | Ok conn => Ok (Some conn)
  | Raise (PymysqlError _) => Ok None
  | Raise e => Raise e
  end.

(** [fetch_table]: again only [pymysql.Error] is caught. *)
Definition fetch_table (connect : result Connection) (query : string) : result DataFrame :=
  conn <- get_connection connect ;;
  match conn with
  | Some conn =>
      match conn query with
      | Ok result => Ok (DataFrame_of result)
      | Raise (PymysqlError _) => Ok DataFrame_nil
      | Raise e => Raise e
      end
  | None => Ok DataFrame_nil
  end.

(** The driver's error contract: whatever [pymysql] raises derives from
    [pymysql.Error]. *)
Definition pymysql_only {A : Type} (r : result A) : Prop :=
  forall e, r = Raise e -> exists msg, e = PymysqlError msg.

Definition driver_contract (connect : result Connection) : Prop :=
  pymysql_only connect /\
  forall conn query, connect = Ok conn -> pymysql_only (conn query).

(** ** The pandas operations the script uses *)

Fixpoint index_of (c : string) (cols : list string) : option nat :=
  match cols with
  | [] => None
  | c' :: rest =>
      if String.eqb c c' then Some 0
      else match index_of c rest with
           | Some i => Some (S i)
           | None => None
           end
  end.

Definition cell (i : nat) (r : row) : value := nth i r VNull.

Definition remove_at {A : Type} (j : nat) (l : list A) : list A :=
  firstn j l ++ skipn (S j) l.

(** [df[c]]: the cells of column [c], or [KeyError]. *)
Definition column (df : DataFrame) (c : string) : result (list value) :=
  match index_of c (columns df) with
  | Some i => Ok (map (cell i) (rows df))
  | None => Raise (KeyError c)
  end.

(** [series == x] for a scalar [x]: a null cell compares unequal to
    everything, other cells compare by value; strings are compared as they
    are, with no case folding or trimming. *)
Definition eq_scalar (x : value) (v : value) : bool :=
  negb (isna v) && value_eqb v x.

(** [df[mask]]: the rows whose mask entry is true; a new frame. *)
Definition boolean_index (df : DataFrame) (mask : list bool) : DataFrame :=
  {| columns := columns df;
     rows := map fst (filter snd (combine (rows df) mask)) |}.

(** [df.head(n)] *)
Definition head (n : nat) (df : DataFrame) : DataFrame :=
  {| columns := columns df; rows := firstn n (rows df) |}.

(** *** Merging *)

(** A key column of numbers: integers, maybe nulls, no string. *)
Definition numeric (vs : list value) : bool := has_int vs && negb (has_str vs).

(** The key columns [pd.merge] refuses to compare: one holds numbers and the
    other holds no number at all (strings, or nothing but nulls).  A side
    without rows is not looked at. *)
Definition keys_incompatible (lkeys rkeys : list value) : bool :=
  match lkeys, rkeys with
  | [], _ => false
  | _, [] => false
  | _, _ => (numeric lkeys && negb (has_int rkeys))
            || (negb (has_int lkeys) && numeric rkeys)
  end.

(** How keys are brought to a common type before they are compared: an
    [int64] column against a [float64] column is compared as doubles. *)
Definition key_cast (lkeys rkeys : list value) : value -> value :=
  match dtype_of lkeys, dtype_of rkeys with
  | Int64, Float64 => as_float64
  | Float64, Int64 => as_float64
  | _, _ => fun v => v
  end.

(** The labels that got a suffix and now repeat an earlier label, while the
    label they had did not ([labels.duplicated() & ~orig.duplicated()]). *)
Fixpoint new_dups (seen_old seen_new old new : list string) : bool :=
  match old, new with
  | o :: os, n :: ns =>
      (mem n seen_new && negb (mem o seen_old))
      || new_dups (o :: seen_old) (n :: seen_new) os ns
  | _, _ => false
  end.

(** The rows of [right] that one left row joins with.  Keys are matched by
    value after the cast [f], and a null key matches a null key (pandas,
    unlike SQL). *)
Definition matches (f : value -> value) (j : nat) (right : DataFrame) (k : value)
    : list row :=
  filter (fun r => value_eqb (f k) (f (cell j r))) (rows right).

(** A left row with each right part it is joined to: the matching right rows
    without their key, or nulls. *)
Definition join_row (f : value -> value) (i j : nat) (right : DataFrame) (l : row)
    : list (row * row) :=
  match matches f j right (cell i l) with
  | [] => [(l, repeat VNull (List.length (columns right) - 1))]
  | ms => map (fun r => (l, remove_at j r)) ms
  end.

(** For each right column but the key: whether it is a column of numbers
    that received a null in the output, and so is kept as [float64]. *)
Definition null_filled (j : nat) (right : DataFrame) (parts : list row) : list bool :=
  map (fun k =>
         numeric (map (fun r => nth k (remove_at j r) VNull) (rows right))
         && has_null (map (fun p => nth k p VNull) parts))
      (seq 0 (List.length (columns right) - 1)).

Fixpoint round_part (flags : list bool) (part : row) {struct part} : row :=
  match part with
  | [] => []
  | v :: t =>
      match flags with
      | b :: fs => (if b then as_float64 v else v) :: round_part fs t
      | [] => v :: t
      end
  end.

(** [pd.merge(left, right, on=on, how="left")].  A key missing on either side
    is a [KeyError], key columns of incompatible types a [ValueError], and a
    suffixed label that repeats another label a [MergeError].  Otherwise the
    key column is kept once, at its place among the left columns; the other
    right columns follow.  A label that both sides use gets the suffix [_x]
    on the left and [_y] on the right.  Each left row gives, in left order,
    one output row per matching right row (in right order), or one
    null-filled row when nothing matches. *)
Definition merge (left right : DataFrame) (on : string) : result DataFrame :=
  match index_of on (columns left), index_of on (columns right) with
  | Some i, Some j =>
      let lkeys := map (cell i) (rows left) in
      let rkeys := map (cell j) (rows right) in
      if keys_incompatible lkeys rkeys then Raise (ValueError on)
      else
        let rcols := remove_at j (columns right) in
        let llabels := map (fun c => if mem c rcols then (c ++ "_x")%string else c)
                           (columns left) in
        let rlabels := map (fun c => if mem c (columns left)
                                     then (c ++ "_y")%string else c) rcols in
        if new_dups [] [] (columns left) llabels || new_dups [] [] rcols rlabels
        then Raise MergeError
        else
          let pairs := flat_map (join_row (key_cast lkeys rkeys) i j right)
                                (rows left) in
          let flags := null_filled j right (map snd pairs) in
          Ok {| columns := llabels ++ rlabels;
                rows := map (fun p => fst p ++ round_part flags (snd p)) pairs |}
  | _, _ => Raise (KeyError on)
  end.

(** Lines 67-80: the merge is attempted only when neither frame is empty;
    otherwise the view is [pd.DataFrame()]. *)
Definition join_left (left right : DataFrame) (on : string) : result DataFrame :=
  if negb (empty left) && negb (empty right)
  then merge left right on
  else Ok DataFrame_nil.

(** *** Sorting

    [sort_values] is called with its default [kind="quicksort"], which pandas
    documents as not stable and hands over to numpy.  The script fixes no
    more than that, so the sort is an interface: any [argsort] that returns a
    permutation of the positions putting the keys in ascending order. *)

Class ArgSort : Type := {
  argsort : list value -> list nat;
  argsort_perm : forall l,
    comparable l = true -> Permutation (argsort l) (seq 0 (List.length l));
  argsort_sorted : forall l,
    comparable l = true ->
    Sorted (fun a b => value_le a b = true) (map (fun p => nth p l VNull) (argsort l))
}.

(** [df.sort_values(by)], following pandas' [nargsort]: the non-null keys are
    argsorted, the positions of the null keys are appended in their original
    order ([na_position="last"]), and the rows are taken in that order. *)
Definition sort_values `{ArgSort} (df : DataFrame) (by_ : string) : result DataFrame :=
  match index_of by_ (columns df) with
  | None => Raise (KeyError by_)
  | Some i =>
      let items := map (cell i) (rows df) in
      let idx := seq 0 (List.length items) in
      let non_nan_idx := filter (fun k => negb (isna (nth k items VNull))) idx in
      let nan_idx := filter (fun k => isna (nth k items VNull)) idx in
      let non_nans := map (fun k => nth k items VNull) non_nan_idx in
      if comparable non_nans then
        let indexer := map (fun p => nth p non_nan_idx 0) (argsort non_nans) ++ nan_idx in
        Ok {| columns := columns df;
              rows := map (fun k => nth k (rows df) []) indexer |}
      else Raise TypeError
  end.

(** Python's [sorted] on a list of cells (stable; [TypeError] when an integer
    meets a string). *)
Fixpoint insert (x : value) (l : list value) : list value :=
  match l with
  | [] => [x]
  | y :: t => if value_le x y then x :: l else y :: insert x t
  end.

Definition sorted (l : list value) : result (list value) :=
  if comparable l then Ok (fold_right insert [] l) else Raise TypeError.

(** [series.dropna().unique()]: the non-null cells, first occurrences only. *)
Fixpoint unique (l : list value) : list value :=
  match l with
  | [] => []
  | x :: t => x :: filter (fun y => negb (value_eqb x y)) (unique t)
  end.

Definition dropna (l : list value) : list value :=
  filter (fun v => negb (isna v)) l.

(** ** Session state (lines 47-52, 130-143) *)

Record SessionState : Type := {
  filters_applied : bool;
  submitted_country : value;
  submitted_category : value
}.

Definition initial_session : SessionState :=
  {| filters_applied := false;
     submitted_country := VNull;
     submitted_category := VNull |}.

(** Lines 49-52: a fresh session ([None]) gets the defaults. *)
Definition init_session (session : option SessionState) : SessionState :=
  match session with
  | Some s => s
  | None => initial_session
  end.

(** What the widgets report in one run: the two select boxes and the two
    buttons. *)
Record Interaction : Type := {
  selected_country : value;
  selected_category : value;
  submitted : bool;
  clear_filters : bool
}.

(** Lines 130-135, the "Apply Filters" button. *)
Definition apply_filters (country category : value) (s : SessionState) : SessionState :=
  {| filters_applied := true;
     submitted_country := country;
     submitted_category := category |}.

(** Lines 139-143, the "Clear Filters / Show All" button. *)
Definition clear (s : SessionState) : SessionState :=
  {| filters_applied := false;
     submitted_country := VNull;
     submitted_category := VNull |}.

Definition sidebar (ui : Interaction) (s : SessionState) : SessionState :=
  let s1 := if submitted ui
            then apply_filters (selected_country ui) (selected_category ui) s
            else s in
  if clear_filters ui then clear s1 else s1.

(** ** Loading and joining (lines 54-86) *)

Record Tables : Type := {
  df_competitors : DataFrame;
  df_rankings : DataFrame;
  df_complexes : DataFrame;
  df_venues : DataFrame;
  df_category : DataFrame;
  df_competition : DataFrame;
  df_merged : DataFrame;
  venue_info : DataFrame;
  comp_info : DataFrame
}.

Definition no_tables : Tables :=
  {| df_competitors := DataFrame_nil; df_rankings := DataFrame_nil;
     df_complexes := DataFrame_nil; df_venues := DataFrame_nil;
     df_category := DataFrame_nil; df_competition := DataFrame_nil;
     df_merged := DataFrame_nil; venue_info := DataFrame_nil;
     comp_info := DataFrame_nil |}.

Definition load_data (connect : result Connection) : result Tables :=
  conn <- get_connection connect ;;
  match conn with
  | Some _ =>
      competitors <- fetch_table connect "SELECT * FROM competitors" ;;
      rankings <- fetch_table connect "SELECT * FROM competitor_rankings" ;;
      complexes <- fetch_table connect "SELECT * FROM complexes" ;;
      venues <- fetch_table connect "SELECT * FROM venues" ;;
      category <- fetch_table connect "SELECT * FROM categories" ;;
      competition <- fetch_table connect "SELECT * FROM competitions" ;;
      merged <- join_left rankings competitors "competitor_id" ;;
      venue <- join_left venues complexes "complex_id" ;;
      comp <- join_left competition category "category_id" ;;
      Ok {| df_competitors := competitors; df_rankings := rankings;
            df_complexes := complexes; df_venues := venues;
            df_category := category; df_competition := competition;
            df_merged := merged; venue_info := venue; comp_info := comp |}
  | None => Ok no_tables
  end.

(** Lines 95-96: the options of a select box. *)
Definition options (df : DataFrame) (c : string) : result (list value) :=
  if negb (empty df)
  then ser <- column df c ;; sorted (unique (dropna ser))
  else Ok [].

(** ** Filters (lines 156-164) *)

Definition filter_by (c : string) (applied : bool) (stored : value)
    (df : DataFrame) : result DataFrame :=
  let filtered := copy df in
  if applied && truthy stored && negb (empty filtered)
  then ser <- column filtered c ;;
       Ok (boolean_index filtered (map (eq_scalar stored) ser))
  else Ok filtered.

Definition filtered_df (s : SessionState) (merged : DataFrame) : result DataFrame :=
  filter_by "country" (filters_applied s) (submitted_country s) merged.

Definition filtered_comp (s : SessionState) (comp : DataFrame) : result DataFrame :=
  filter_by "category_name" (filters_applied s) (submitted_category s) comp.

(** The same step on a store of frame objects, to see which objects it
    touches: [copy] and [df[mask]] each allocate a new frame. *)
Definition Heap : Type := list DataFrame.

Definition deref (h : Heap) (a : nat) : DataFrame := nth a h DataFrame_nil.

Definition alloc (h : Heap) (df : DataFrame) : Heap * nat :=
  (h ++ [df], List.length h).

Definition filter_step (c : string) (applied : bool) (stored : value)
    (h : Heap) (src : nat) : result (Heap * nat) :=
  let (h1, filtered) := alloc h (copy (deref h src)) in
  if applied && truthy stored && negb (empty (deref h1 filtered))
  then ser <- column (deref h1 filtered) c ;;
       Ok (alloc h1 (boolean_index (deref h1 filtered) (map (eq_scalar stored) ser)))
  else Ok (h1, filtered).

(** ** Top 10 (lines 174-181)

    [None] stands for the branch that writes "No ranking data available." and
    leaves [top10] unbound. *)
Definition top10 `{ArgSort} (merged : DataFrame) : result (option DataFrame) :=
  if negb (empty merged)
  then by_rank <- sort_values merged "rank" ;; Ok (Some (head 10 by_rank))
  else Ok None.

(** ** One run of the script *)

Record Page : Type := {
  country_list : list value;
  category_list : list value;
  shown_rankings : DataFrame;
  shown_top10 : option DataFrame;
  shown_venues : DataFrame;
  shown_competitions : DataFrame;
  hist_data : DataFrame
}.

Definition run_script `{ArgSort} (connect : result Connection)
    (session : option SessionState) (ui : Interaction) : result (SessionState * Page) :=
  let s0 := init_session session in
  t <- load_data connect ;;
  countries <- options (df_competitors t) "country" ;;
  categories <- options (df_category t) "category_name" ;;
  let s := sidebar ui s0 in
  rankings <- filtered_df s (df_merged t) ;;
  competitions <- filtered_comp s (comp_info t) ;;
  top <- top10 (df_merged t) ;;
  Ok (s, {| country_list := countries; category_list := categories;
            shown_rankings := rankings; shown_top10 := top;
            shown_venues := venue_info t; shown_competitions := competitions;
            hist_data := df_merged t |}).

(** A session: the script re-run once per interaction, the session state
    carried from one run to the next. *)
Fixpoint run_session `{ArgSort} (connect : result Connection)
    (session : option SessionState) (uis : list Interaction)
    : result (option SessionState * list Page) :=
  match uis with
  | [] => Ok (session, [])
  | ui :: rest =>
      sp <- run_script connect session ui ;;
      sps <- run_session connect (Some (fst sp)) rest ;;
      Ok (fst sps, snd sp :: snd sps)
  end.

(** ** Two implementations of the sort interface

    Insertion of the positions [n-1], ..., [0] into an ordered list of
    positions.  With [before := value_le] a position is put in front of the
    later positions holding an equal key (ties keep their order); with the
    strict comparison it is put behind them (ties come out reversed). *)

Fixpoint insert_pos (before : value -> value -> bool) (l : list value)
    (k : nat) (acc : list nat) : list nat :=
  match acc with
  | [] => [k]
  | j :: t =>
      if before (nth k l VNull) (nth j l VNull)
      then k :: acc
      else j :: insert_pos before l k t
  end.

Definition insertion_argsort (before : value -> value -> bool) (l : list value) : list nat :=
  fold_right (insert_pos before l) [] (seq 0 (List.length l)).

Definition value_lt (a b : value) : bool := negb (value_le b a).

(** ** Notions used in the statements *)

(** The rows a filter is meant to keep: those whose cell in column [i] is
    the stored value. *)
Definition select (i : nat) (x : value) (df : DataFrame) : DataFrame :=
  {| columns := columns df;
     rows := filter (fun r => value_eqb (cell i r) x) (rows df) |}.

(** Every row has one cell per column. *)
Definition well_formed (df : DataFrame) : Prop :=
  Forall (fun r => List.length r = List.length (columns df)) (rows df).

(** What a left row is extended with when the right keys are unique. *)
Definition right_part (i j : nat) (right : DataFrame) (l : row) : row :=
  match matches (fun v => v) j right (cell i l) with
  | [] => repeat VNull (List.length (columns right) - 1)
  | r :: _ => remove_at j r
  end.

(** Key columns of one kind: numbers on both sides, or strings on both. *)
Definition same_kind (lkeys rkeys : list value) : Prop :=
  (numeric lkeys = true /\ numeric rkeys = true) \/
  (has_str lkeys = true /\ has_int lkeys = false /\
   has_str rkeys = true /\ has_int rkeys = false).

(** Distinct labels on each side, and no label of either side is a shared
    label with its suffix. *)
Definition labels_fresh (left right : DataFrame) (on : string) : Prop :=
  NoDup (columns left) /\ NoDup (columns right) /\
  forall c, In c (columns left) -> In c (columns right) -> c <> on ->
            ~ In (c ++ "_x")%string (columns left ++ columns right) /\
            ~ In (c ++ "_y")%string (columns left ++ columns right).

(** Ascending with nulls last, on integer keys. *)
Definition rank_le (a b : value) : Prop :=
  match a, b with
  | _, VNull => True
  | VInt x, VInt y => (x <= y)%Z
  | _, _ => False
  end.

(** A stable sort by rank, nulls last: the rows are inserted from last to
    first, each one in front of the first row whose key is not smaller, so
    that rows with equal keys keep their order. *)
Definition rank_leb (a b : value) : bool :=
  match a, b with
  | _, VNull => true
  | VNull, _ => false
  | _, _ => value_le a b
  end.

Fixpoint insert_row (i : nat) (r : row) (acc : list row) : list row :=
  match acc with
  | [] => [r]
  | r' :: t =>
      if rank_leb (cell i r) (cell i r') then r :: acc else r' :: insert_row i r t
  end.

Definition stable_by_rank (i : nat) (rs : list row) : list row :=
  fold_right (insert_row i) [] rs.

(** What a run shows when nothing could be loaded. *)
Definition blank_page : Page :=
  {| country_list := []; category_list := [];
     shown_rankings := DataFrame_nil; shown_top10 := None;
     shown_venues := DataFrame_nil; shown_competitions := DataFrame_nil;
     hist_data := DataFrame_nil |}.

(** The two buttons. *)
Definition click_apply (country category : value) : Interaction :=
  {| selected_country := country; selected_category := category;
     submitted := true; clear_filters := false |}.

Definition click_clear (country category : value) : Interaction :=
  {| selected_country := country; selected_category := category;
     submitted := false; clear_filters := true |}.

Definition session (applied : bool) (country category : value) : SessionState :=
  {| filters_applied := applied;
     submitted_country := country;
     submitted_category := category |}.

(** ** Sample data *)

Definition sample_merged : DataFrame :=
  {| columns := ["competitor_id"; "rank"; "points"; "name"; "country"];
     rows := [ [VInt 1; VInt 1; VInt 100; VStr "Alice"; VStr "France"];
               [VInt 2; VInt 2; VInt 90; VStr "Bruno"; VStr "Spain"];
               [VInt 3; VInt 3; VInt 80; VStr "Chloe"; VStr "France"] ] |}.

Definition sample_comp : DataFrame :=
  {| columns := ["competition_id"; "name"; "category_id"; "category_name"];
     rows := [ [VInt 10; VStr "Paris Open"; VInt 1; VStr "ATP"];
               [VInt 11; VStr "Madrid Cup"; VInt 2; VStr "WTA"] ] |}.

Definition blank_country : DataFrame :=
  {| columns := ["name"; "country"];
     rows := [ [VStr "Dana"; VStr ""]; [VStr "Alice"; VStr "France"] ] |}.

Definition one_ranking : DataFrame :=
  {| columns := ["competitor_id"; "rank"; "points"];
     rows := [ [VInt 1; VInt 1; VInt 100] ] |}.

Definition repeated_competitor : DataFrame :=
  {| columns := ["competitor_id"; "name"; "country"];
     rows := [ [VInt 1; VStr "Alice"; VStr "France"];
               [VInt 1; VStr "Alicia"; VStr "Spain"] ] |}.

Definition sample_rankings : DataFrame :=
  {| columns := ["competitor_id"; "rank"; "points"];
     rows := [ [VInt 1; VInt 1; VInt 100];
               [VInt 7; VInt 2; VInt 95];
               [VInt 2; VInt 3; VInt 90] ] |}.

Definition sample_competitors : DataFrame :=
  {| columns := ["competitor_id"; "name"; "country"];
     rows := [ [VInt 2; VStr "Bruno"; VStr "Spain"];
               [VInt 1; VStr "Alice"; VStr "France"];
               [VInt 9; VStr "Chloe"; VStr "France"] ] |}.

Definition tied : DataFrame :=
  {| columns := ["competitor_id"; "rank"; "points"];
     rows := [ [VInt 1; VInt 5; VInt 70];
               [VInt 2; VInt 5; VInt 60];
               [VInt 3; VInt 4; VInt 80] ] |}.

(** Forty competitors with the ids 1 to 40: the first thirteen with rank 3,
    the next thirteen with rank 2, the last fourteen with rank 1. *)
Definition many_ties : DataFrame :=
  {| columns := ["competitor_id"; "rank"; "points"];
     rows := map (fun k => [VInt (Z.of_nat (S k));
                            VInt (if Nat.ltb k 13 then 3 else if Nat.ltb k 26 then 2 else 1);
                            VInt (Z.of_nat (1000 - k))])
                 (seq 0 40) |}.

(** A small database behind a working connection. *)
Definition sample_db : Connection := fun query =>
  if String.eqb query "SELECT * FROM competitors" then
    Ok [ [("competitor_id", VInt 1); ("name", VStr "Alice"); ("country", VStr "France")];
         [("competitor_id", VInt 2); ("name", VStr "Bruno"); ("country", VStr "Spain")] ]
  else if String.eqb query "SELECT * FROM competitor_rankings" then
    Ok [ [("competitor_id", VInt 2); ("rank", VInt 2); ("points", VInt 90)];
         [("competitor_id", VInt 1); ("rank", VInt 1); ("points", VInt 100)] ]
  else if String.eqb query "SELECT * FROM categories" then
    Ok [ [("category_id", VInt 1); ("category_name", VStr "ATP")] ]
  else if String.eqb query "SELECT * FROM competitions" then
    Ok [ [("competition_id", VInt 10); ("category_id", VInt 1)] ]
  else if String.eqb query "SELECT * FROM complexes" then
    Raise (PymysqlError "Table 'Tennis_Game.complexes' doesn't exist")
  else Ok [].

Definition no_clicks : Interaction :=
  {| selected_country := VStr "France"; selected_category := VStr "ATP";
     submitted := false; clear_filters := false |}.

Definition browsing : list Interaction :=
  [ click_apply (VStr "France") (VStr "ATP"); no_clicks;
    click_clear (VStr "Spain") (VStr "ATP"); click_apply (VStr "Spain") VNull ].

(** ** Select-box defaults (lines 98-111) and the bar-chart guard (line 217) *)

(** Python's [x in l] on a list of cells. *)
Definition contains (x : value) (l : list value) : bool :=
  existsb (value_eqb x) l.

(** [l.index(x)]: the first position holding [x]; [None] stands for
    [ValueError]. *)
Fixpoint list_index (x : value) (l : list value) : option nat :=
  match l with
  | [] => None
  | y :: t =>
      if value_eqb y x then Some 0%nat
      else match list_index x t with
           | Some i => Some (S i)
           | None => None
           end
  end.

(** Lines 98-111: the position a select box opens on; the [except
    ValueError] branch falls back to 0. *)
Definition default_index (applied : bool) (stored : value)
    (option_list : list value) : nat :=
  if applied && contains stored option_list
  then match list_index stored option_list with
       | Some i => i
       | None => 0%nat
       end
  else 0%nat.

(** Line 217: the bar chart is drawn from [top10] only when that name is
    bound and the frame is not empty. *)
Definition bar_chart_data (top : option DataFrame) : option DataFrame :=
  match top with
  | Some t => if negb (empty t) then Some t else None
  | None => None
  end.

(** ** Further notions used in the statements *)

Definition is_pymysql (e : exn) : bool :=
  match e with
  | PymysqlError _ => true
  | _ => false
  end.


(** The session state after a series of runs. *)
Definition replay (uis : list Interaction) (s : SessionState) : SessionState :=
  fold_left (fun s ui => sidebar ui s) uis s.

Definition clicked (ui : Interaction) : bool :=
  submitted ui || clear_filters ui.

(** A value that a double holds without rounding. *)
Definition exact (v : value) : Prop :=
  match v with
  | VInt z => (Z.abs z <= 2 ^ 53)%Z
  | _ => True
  end.

Definition exact_frame (df : DataFrame) : Prop :=
  Forall (Forall exact) (rows df).

(** A state that stores nothing while the filters are off. *)
Definition tidy (s : SessionState) : Prop :=
  filters_applied s = false ->
  submitted_country s = VNull /\ submitted_category s = VNull.

(** A query that gives nothing: it fails with a [pymysql.Error] or returns
    no row. *)
Definition gives_nothing (conn : Connection) (query : string) : Prop :=
  (exists msg, conn query = Raise (PymysqlError msg)) \/ conn query = Ok [].

(** ** More sample data *)

Definition ragged_records : list record :=
  [ [("competitor_id", VInt 1); ("name", VStr "Alice")];
    [("competitor_id", VInt 2); ("country", VStr "Spain")] ].

(** An integer column with a null: pandas keeps it as [float64]. *)
Definition big_id_records : list record :=
  [ [("competitor_id", VInt 9007199254740993)];
    [("competitor_id", VNull)] ].

Definition uniform_records : list record :=
  [ [("competitor_id", VInt 1); ("rank", VInt 1); ("points", VInt 100)];
    [("competitor_id", VInt 7); ("rank", VInt 2); ("points", VInt 95)];
    [("competitor_id", VInt 2); ("rank", VInt 3); ("points", VInt 90)] ].

Definition null_country : DataFrame :=
  {| columns := ["name"; "country"];
     rows := [ [VStr "Dana"; VNull]; [VStr "Alice"; VStr "France"];
               [VStr "Elio"; VNull] ] |}.

Definition mixed_ranks : DataFrame :=
  {| columns := ["competitor_id"; "rank"];
     rows := [ [VInt 1; VInt 3]; [VInt 2; VStr "unranked"]; [VInt 3; VNull] ] |}.

Definition twelve_ranked : DataFrame :=
  {| columns := ["competitor_id"; "rank"];
     rows := [ [VInt 1; VInt 12]; [VInt 2; VInt 3]; [VInt 3; VNull];
               [VInt 4; VInt 7]; [VInt 5; VInt 1]; [VInt 6; VInt 9];
               [VInt 7; VInt 2]; [VInt 8; VInt 11]; [VInt 9; VInt 5];
               [VInt 10; VInt 4]; [VInt 11; VInt 8]; [VInt 12; VInt 6] ] |}.

Definition no_country_db : Connection := fun query =>
  if String.eqb query "SELECT * FROM competitors"
  then Ok [ [("competitor_id", VInt 1); ("name", VStr "Alice")] ]
  else Ok [].

(** A frame that already has the label the merge would give to [name]. *)
Definition suffixed_rankings : DataFrame :=
  {| columns := ["competitor_id"; "name"; "name_x"];
     rows := [ [VInt 1; VStr "Alice"; VStr "A."] ] |}.

(** Two rankings, and one competitor with a large number of points. *)
Definition two_rankings : DataFrame :=
  {| columns := ["competitor_id"; "rank"];
     rows := [ [VInt 1; VInt 1]; [VInt 2; VInt 2] ] |}.

Definition big_points : DataFrame :=
  {| columns := ["competitor_id"; "points"];
     rows := [ [VInt 1; VInt 9007199254740993] ] |}.

(** Competitors keyed by strings, against rankings keyed by integers. *)
Definition string_keyed : DataFrame :=
  {| columns := ["competitor_id"; "name"];
     rows := [ [VStr "sr:competitor:1"; VStr "Alice"] ] |}.

Definition mixed_keys_db : Connection := fun query =>
  if String.eqb query "SELECT * FROM competitors"
  then Ok [ [("competitor_id", VStr "sr:competitor:1"); ("name", VStr "Alice")] ]
  else if String.eqb query "SELECT * FROM competitor_rankings"
  then Ok [ [("competitor_id", VInt 1); ("rank", VInt 1); ("points", VInt 100)] ]
  else Ok [].

(** * Basic facts *)

Lemma value_eqb_eq (a b : value) : value_eqb a b = true <-> a = b.
Proof.
  destruct a, b; simpl; split; intros E; try congruence; try reflexivity.
  - apply Z.eqb_eq in E. now subst.
  - injection E as ->. apply Z.eqb_refl.
  - apply String.eqb_eq in E. now subst.
  - injection E as ->. apply String.eqb_refl.
Qed.

Lemma mem_In (c : string) (cols : list string) : mem c cols = true <-> In c cols.
Proof.
  unfold mem. rewrite existsb_exists. split.
  - intros (x & Hx & E). apply String.eqb_eq in E. now subst.
  - intros H. exists c. split; [exact H | apply String.eqb_refl].
Qed.

Lemma index_of_nth (c : string) (cols : list string) (i : nat) :
  index_of c cols = Some i -> nth_error cols i = Some c.
Proof.
  revert i. induction cols as [|c' cols IH]; simpl; intros i E; [discriminate|].
  destruct (String.eqb c c') eqn:Ec.
  - injection E as <-. apply String.eqb_eq in Ec. now subst.
  - destruct (index_of c cols) as [k|]; [|discriminate].
    injection E as <-. simpl. now apply IH.
Qed.

Lemma copy_eq (df : DataFrame) : copy df = df.
Proof. now destruct df. Qed.

Lemma mask_filter {A : Type} (f : A -> bool) (l : list A) :
  map fst (filter snd (combine l (map f l))) = filter f l.
Proof.
  induction l as [|x l IH]; simpl; [reflexivity|].
  destruct (f x); simpl; now rewrite IH.
Qed.

Lemma map_nth_seq {A : Type} (d : A) (l : list A) :
  map (fun k => nth k l d) (seq 0 (List.length l)) = l.
Proof.
  induction l as [|x l IH]; simpl; [reflexivity|].
  f_equal. rewrite <- seq_shift, map_map. exact IH.
Qed.

(** * The insertion sorts implement the interface *)

Section Insertion.
Variable before : value -> value -> bool.
Variable l : list value.
Let key (k : nat) : value := nth k l VNull.
Let le (a b : value) : Prop := value_le a b = true.

Hypothesis before_true : forall j k,
  (j < List.length l)%nat -> (k < List.length l)%nat ->
  before (key j) (key k) = true -> le (key j) (key k).
Hypothesis before_false : forall j k,
  (j < List.length l)%nat -> (k < List.length l)%nat ->
  before (key j) (key k) = false -> le (key k) (key j).

Lemma insert_pos_perm (k : nat) (acc : list nat) :
  Permutation (insert_pos before l k acc) (k :: acc).
Proof.
  induction acc as [|j t IH]; simpl; [reflexivity|].
  destruct (before _ _); [reflexivity|].
  rewrite IH. apply perm_swap.
Qed.

Lemma insert_pos_hd (a : value) (k : nat) (acc : list nat) :
  le a (key k) -> HdRel le a (map key acc) ->
  HdRel le a (map key (insert_pos before l k acc)).
Proof.
  intros Hk Hacc. destruct acc as [|j t]; simpl.
  - now constructor.
  - destruct (before _ _); simpl; constructor; [exact Hk|].
    now inversion Hacc.
Qed.

Lemma insert_pos_sorted (k : nat) (acc : list nat) :
  (k < List.length l)%nat ->
  Forall (fun j => (j < List.length l)%nat) acc ->
  Sorted le (map key acc) ->
  Sorted le (map key (insert_pos before l k acc)).
Proof.
  intros Hk. induction acc as [|j t IH]; simpl; intros Hin Hs.
  - repeat constructor.
  - inversion Hin as [|? ? Hj Ht]; subst.
    inversion Hs as [|? ? Hst Hhd]; subst.
    destruct (before (nth k l VNull) (nth j l VNull)) eqn:E; simpl.
    + constructor; [exact Hs|]. constructor.
      now apply before_true.
    + constructor; [now apply IH|].
      apply insert_pos_hd; [|exact Hhd].
      now apply before_false.
Qed.

Lemma fold_insert_pos (ks : list nat) :
  Forall (fun j => (j < List.length l)%nat) ks ->
  let out := fold_right (insert_pos before l) [] ks in
  Permutation out ks /\
  Forall (fun j => (j < List.length l)%nat) out /\
  Sorted le (map key out).
Proof.
  induction ks as [|k ks IH]; simpl; intros Hin.
  - repeat split; constructor.
  - inversion Hin as [|? ? Hk Hks]; subst.
    destruct (IH Hks) as (Hp & Hr & Hs).
    assert (Hp' : Permutation (insert_pos before l k (fold_right (insert_pos before l) [] ks)) (k :: ks)).
    { rewrite insert_pos_perm. now constructor. }
    repeat split.
    + exact Hp'.
    + eapply Permutation_Forall; [symmetry; exact Hp'|]. now constructor.
    + now apply insert_pos_sorted.
Qed.

Lemma insertion_argsort_ok :
  Permutation (insertion_argsort before l) (seq 0 (List.length l)) /\
  Sorted le (map key (insertion_argsort before l)).
Proof.
  destruct (fold_insert_pos (seq 0 (List.length l))) as (Hp & _ & Hs).
  - apply Forall_forall. intros j Hj. apply in_seq in Hj. lia.
  - split; assumption.
Qed.
End Insertion.

Lemma comparable_total (l : list value) (x y : value) :
  comparable l = true -> In x l -> In y l ->
  value_le x y = true \/ value_le y x = true.
Proof.
  unfold comparable. intros H Hx Hy.
  apply orb_true_iff in H. destruct H as [H|H];
    rewrite forallb_forall in H;
    pose proof (H x Hx) as Ex; pose proof (H y Hy) as Ey;
    destruct x, y; simpl in *; try discriminate.
  - destruct (Z.leb_spec z z0); [now left|right]. apply Z.leb_le. lia.
  - apply String.leb_total.
Qed.

Lemma stable_argsort_ok (l : list value) :
  comparable l = true ->
  Permutation (insertion_argsort value_le l) (seq 0 (List.length l)) /\
  Sorted (fun a b => value_le a b = true)
         (map (fun p => nth p l VNull) (insertion_argsort value_le l)).
Proof.
  intros Hc. apply insertion_argsort_ok.
  - intros j k _ _ E. exact E.
  - intros j k Hj Hk E.
    destruct (comparable_total l (nth j l VNull) (nth k l VNull) Hc) as [E'|E'];
      try (apply nth_In; assumption); congruence.
Qed.

Lemma reversing_argsort_ok (l : list value) :
  comparable l = true ->
  Permutation (insertion_argsort value_lt l) (seq 0 (List.length l)) /\
  Sorted (fun a b => value_le a b = true)
         (map (fun p => nth p l VNull) (insertion_argsort value_lt l)).
Proof.
  intros Hc. apply insertion_argsort_ok.
  - unfold value_lt. intros j k Hj Hk E. apply negb_true_iff in E.
    destruct (comparable_total l (nth j l VNull) (nth k l VNull) Hc) as [E'|E'];
      try (apply nth_In; assumption); congruence.
  - unfold value_lt. intros j k Hj Hk E. now apply negb_false_iff in E.
Qed.

(** A sort that keeps ties in their original order ... *)
Definition stable_argsort : ArgSort :=
  {| argsort := insertion_argsort value_le;
     argsort_perm := fun l H => proj1 (stable_argsort_ok l H);
     argsort_sorted := fun l H => proj2 (stable_argsort_ok l H) |}.

(** ... and one that does not. *)
Definition reversing_argsort : ArgSort :=
  {| argsort := insertion_argsort value_lt;
     argsort_perm := fun l H => proj1 (reversing_argsort_ok l H);
     argsort_sorted := fun l H => proj2 (reversing_argsort_ok l H) |}.

Example stable_argsort_ties :
  @argsort stable_argsort [VInt 2; VInt 1; VInt 2; VInt 1] = [1; 3; 0; 2]%nat.
Proof. reflexivity. Qed.

Example reversing_argsort_ties :
  @argsort reversing_argsort [VInt 2; VInt 1; VInt 2; VInt 1] = [3; 1; 2; 0]%nat.
Proof. reflexivity. Qed.

(** * Filters *)

Lemma eq_scalar_eqb (x v : value) :
  x <> VNull -> eq_scalar x v = value_eqb v x.
Proof.
  intros Hx. unfold eq_scalar. destruct v; simpl; try reflexivity.
  destruct x; simpl; congruence.
Qed.

Lemma filter_by_off (c : string) (applied : bool) (stored : value) (df : DataFrame) :
  applied && truthy stored && negb (empty df) = false ->
  filter_by c applied stored df = Ok df.
Proof.
  unfold filter_by. rewrite copy_eq. now intros ->.
Qed.

Lemma filter_by_on (c : string) (stored : value) (df : DataFrame) (i : nat) :
  truthy stored = true ->
  index_of c (columns df) = Some i ->
  filter_by c true stored df = Ok (select i stored df).
Proof.
  intros Ht Hi. unfold filter_by. rewrite copy_eq, Ht. simpl.
  destruct (empty df) eqn:He; simpl.
  - unfold select. destruct df as [cols rs]. unfold empty in He. simpl in *.
    destruct cols; [discriminate|]. destruct rs; [reflexivity|discriminate].
  - unfold column. rewrite Hi. simpl. unfold boolean_index, select. f_equal. f_equal.
    rewrite map_map.
    rewrite (mask_filter (fun r => eq_scalar stored (cell i r))).
    apply filter_ext. intros r. apply eq_scalar_eqb.
    intros ->. discriminate.
Qed.

Lemma deref_new (h : Heap) (df : DataFrame) :
  deref (h ++ [df]) (List.length h) = df.
Proof. unfold deref. rewrite app_nth2 by lia. now rewrite Nat.sub_diag. Qed.

Lemma deref_old (h : Heap) (df : DataFrame) (b : nat) :
  (b < List.length h)%nat -> deref (h ++ [df]) b = deref h b.
Proof. intros Hb. unfold deref. now rewrite app_nth1. Qed.

Lemma filter_step_frame (c : string) (applied : bool) (stored : value)
    (h : Heap) (src : nat) :
  match filter_step c applied stored h src with
  | Ok (h', a) =>
      filter_by c applied stored (deref h src) = Ok (deref h' a) /\
      (List.length h <= a)%nat /\
      forall b, (b < List.length h)%nat -> deref h' b = deref h b
  | Raise e => filter_by c applied stored (deref h src) = Raise e
  end.
Proof.
  unfold filter_step, filter_by, alloc. rewrite deref_new.
  set (f := copy (deref h src)).
  destruct (applied && truthy stored && negb (empty f)).
  - destruct (column f c) as [ser|e]; simpl; [|reflexivity].
    rewrite deref_new. repeat split.
    + rewrite length_app. simpl. lia.
    + intros b Hb. rewrite deref_old by (rewrite length_app; simpl; lia).
      now apply deref_old.
  - rewrite deref_new. repeat split.
    + lia.
    + intros b Hb. now apply deref_old.
Qed.

(** C2: when the filters are not applied, or the stored value of the filter
    is absent, or the frame is empty, [filtered_df] and [filtered_comp]
    return the frame they were given, whatever else the state holds. *)
Theorem filter_pass_through (s : SessionState) (df : DataFrame) :
  (filters_applied s = false \/ submitted_country s = VNull \/ empty df = true ->
   filtered_df s df = Ok df) /\
  (filters_applied s = false \/ submitted_category s = VNull \/ empty df = true ->
   filtered_comp s df = Ok df).
Proof.
  split; intros H; apply filter_by_off;
    destruct H as [H | [H | H]]; rewrite H; simpl;
    rewrite ?andb_false_r; reflexivity.
Qed.

Lemma filter_pass_through_witness :
  filtered_df (session false (VStr "France") (VStr "ATP")) sample_merged = Ok sample_merged /\
  filtered_comp (session true (VStr "France") VNull) sample_comp = Ok sample_comp /\
  filtered_df (session true (VStr "France") (VStr "ATP")) DataFrame_nil = Ok DataFrame_nil.
Proof.
  split; [|split].
  - apply (proj1 (filter_pass_through _ sample_merged)). left. reflexivity.
  - apply (proj2 (filter_pass_through _ sample_comp)). right. left. reflexivity.
  - apply (proj1 (filter_pass_through _ DataFrame_nil)). right. right. reflexivity.
Defined.

(** C10: with the filters applied but a stored value that Python takes for
    false ([None] or the empty string), [filtered_df] and [filtered_comp]
    return the frame they were given: the empty string is not matched against
    the column. *)
Theorem filter_falsy_pass_through (s : SessionState) (df : DataFrame) :
  filters_applied s = true ->
  (submitted_country s = VNull \/ submitted_country s = VStr "" ->
   filtered_df s df = Ok df) /\
  (submitted_category s = VNull \/ submitted_category s = VStr "" ->
   filtered_comp s df = Ok df).
Proof.
  intros Ha. split; intros H; apply filter_by_off; rewrite Ha;
    destruct H as [-> | ->]; reflexivity.
Qed.

Lemma filter_falsy_pass_through_witness :
  filtered_df (session true (VStr "") VNull) blank_country = Ok blank_country /\
  filtered_comp (session true VNull (VStr "")) sample_comp = Ok sample_comp.
Proof.
  split.
  - apply (proj1 (filter_falsy_pass_through (session true (VStr "") VNull)
                    blank_country eq_refl)).
    right. reflexivity.
  - apply (proj2 (filter_falsy_pass_through (session true VNull (VStr ""))
                    sample_comp eq_refl)).
    right. reflexivity.
Defined.

(** C1, as stated, fails: with the empty string stored, the claim asks for
    the rows whose country is the empty string, and the code returns every
    row. *)
Lemma filter_empty_string_not_matched :
  filtered_df (session true (VStr "") VNull) blank_country
  <> Ok (select 1 (VStr "") blank_country).
Proof. vm_compute. discriminate. Qed.

(** C1, amended: with the filters applied and a non-empty string stored, a
    frame that has the column is reduced to exactly the rows whose cell in
    that column is the stored string, compared as it is.  The rows come out
    in input order ([filter]); when no row matches the result has no rows and
    nothing is raised; and on the store of frame objects the result is a new
    object while every object that existed before is unchanged. *)
Theorem filter_exact_match (c x : string) (df : DataFrame) (i : nat) :
  x <> "" ->
  index_of c (columns df) = Some i ->
  (forall s, filters_applied s = true -> submitted_country s = VStr x ->
             c = "country" -> filtered_df s df = Ok (select i (VStr x) df)) /\
  (forall s, filters_applied s = true -> submitted_category s = VStr x ->
             c = "category_name" -> filtered_comp s df = Ok (select i (VStr x) df)) /\
  ((forall r, In r (rows df) -> cell i r <> VStr x) ->
   select i (VStr x) df = {| columns := columns df; rows := [] |}) /\
  (forall h src, deref h src = df ->
     exists h' a,
       filter_step c true (VStr x) h src = Ok (h', a) /\
       deref h' a = select i (VStr x) df /\
       (List.length h <= a)%nat /\
       forall b, (b < List.length h)%nat -> deref h' b = deref h b).
Proof.
  intros Hx Hi.
  assert (Ht : truthy (VStr x) = true).
  { simpl. apply negb_true_iff. apply String.eqb_neq. exact Hx. }
  pose proof (filter_by_on c (VStr x) df i Ht Hi) as Hf.
  repeat split.
  - intros s Ha Hs ->. unfold filtered_df. now rewrite Ha, Hs.
  - intros s Ha Hs ->. unfold filtered_comp. now rewrite Ha, Hs.
  - intros Hno. unfold select. f_equal.
    induction (rows df) as [|r rs IH]; simpl; [reflexivity|].
    destruct (value_eqb (cell i r) (VStr x)) eqn:E.
    + apply value_eqb_eq in E. exfalso. apply (Hno r); [now left|exact E].
    + apply IH. intros r' Hr'. apply Hno. now right.
  - intros h src Hd.
    pose proof (filter_step_frame c true (VStr x) h src) as Hs.
    rewrite Hd, Hf in Hs.
    destruct (filter_step c true (VStr x) h src) as [[h' a]|e]; [|discriminate].
    destruct Hs as (E & Hl & Hold). injection E as E.
    exists h', a. repeat split; auto.
Qed.

Lemma filter_exact_match_witness :
  filtered_df (session true (VStr "France") (VStr "ATP")) sample_merged
  = Ok {| columns := columns sample_merged;
          rows := [ [VInt 1; VInt 1; VInt 100; VStr "Alice"; VStr "France"];
                    [VInt 3; VInt 3; VInt 80; VStr "Chloe"; VStr "France"] ] |}.
Proof.
  assert (Hx : "France" <> "") by discriminate.
  exact (proj1 (filter_exact_match "country" "France" sample_merged 4 Hx eq_refl)
           (session true (VStr "France") (VStr "ATP")) eq_refl eq_refl eq_refl).
Defined.

(** * Session state *)

(** C9: the apply transition sets [filters_applied] and stores the two
    submitted values as they are; the clear transition puts the three fields
    back to their defaults.  So after applying ("France", "ATP") the country
    filter keeps exactly the rows whose country is "France", and after a
    following clear it returns the whole frame again. *)
Theorem apply_then_clear (s : SessionState) (country category : value)
    (df : DataFrame) (i : nat) :
  index_of "country" (columns df) = Some i ->
  sidebar (click_apply country category) s = session true country category /\
  sidebar (click_clear country category) s = initial_session /\
  (let s1 := sidebar (click_apply (VStr "France") (VStr "ATP")) s in
   let s2 := sidebar (click_clear (VStr "France") (VStr "ATP")) s1 in
   exists out,
     filtered_df s1 df = Ok out /\
     out = select i (VStr "France") df /\
     Forall (fun r => cell i r = VStr "France") (rows out) /\
     filtered_df s2 df = Ok df).
Proof.
  intros Hi. repeat split.
  exists (select i (VStr "France") df). repeat split.
  - apply (filter_by_on "country" (VStr "France") df i eq_refl Hi).
  - apply Forall_forall. intros r Hr. simpl in Hr.
    apply filter_In in Hr. destruct Hr as [_ E]. now apply value_eqb_eq in E.
  - apply filter_by_off. reflexivity.
Qed.

Lemma apply_then_clear_witness :
  let s1 := sidebar (click_apply (VStr "France") (VStr "ATP")) initial_session in
  let s2 := sidebar (click_clear (VStr "France") (VStr "ATP")) s1 in
  exists out,
    filtered_df s1 sample_merged = Ok out /\
    out = select 4 (VStr "France") sample_merged /\
    Forall (fun r => cell 4 r = VStr "France") (rows out) /\
    filtered_df s2 sample_merged = Ok sample_merged.
Proof.
  exact (proj2 (proj2 (apply_then_clear initial_session VNull VNull
                         sample_merged 4 eq_refl))).
Defined.

(** * Joins *)

Lemma join_left_empty (left right : DataFrame) (on : string) :
  empty left = true \/ empty right = true ->
  join_left left right on = Ok DataFrame_nil.
Proof.
  unfold join_left. intros [-> | ->]; simpl; [reflexivity|].
  now rewrite andb_false_r.
Qed.

Lemma join_left_merge (left right : DataFrame) (on : string) :
  empty left = false -> empty right = false ->
  join_left left right on = merge left right on.
Proof. unfold join_left. now intros -> ->. Qed.

Lemma matches_unique (j : nat) (right : DataFrame) (k : value) :
  NoDup (map (cell j) (rows right)) ->
  (List.length (matches (fun v => v) j right k) <= 1)%nat.
Proof.
  unfold matches. induction (rows right) as [|r rs IH]; simpl; intros Hnd; [lia|].
  inversion Hnd as [|? ? Hnot Hnd']; subst.
  destruct (value_eqb k (cell j r)) eqn:E.
  - apply value_eqb_eq in E. subst k. simpl.
    assert (Hno : filter (fun r0 => value_eqb (cell j r) (cell j r0)) rs = []).
    { clear IH Hnd Hnd'. induction rs as [|r' rs IH]; simpl; [reflexivity|].
      destruct (value_eqb (cell j r) (cell j r')) eqn:E'.
      - apply value_eqb_eq in E'. exfalso. apply Hnot. simpl. now left.
      - apply IH. intros Hin. apply Hnot. simpl. now right. }
    rewrite Hno. simpl. lia.
  - now apply IH.
Qed.

Lemma flat_map_singleton {A B : Type} (f : A -> list B) (g : A -> B) (l : list A) :
  (forall a, f a = [g a]) -> flat_map f l = map g l.
Proof.
  intros H. induction l as [|a l IH]; simpl; [reflexivity|].
  now rewrite H, IH.
Qed.

Lemma right_part_no_match (i j : nat) (right : DataFrame) (l : row) :
  (forall r, In r (rows right) -> cell j r <> cell i l) ->
  right_part i j right l = repeat VNull (List.length (columns right) - 1).
Proof.
  intros Hno. unfold right_part.
  destruct (matches (fun v => v) j right (cell i l)) as [|r ms] eqn:E; [reflexivity|].
  assert (Hin : In r (matches (fun v => v) j right (cell i l))) by (rewrite E; now left).
  apply filter_In in Hin. destruct Hin as [Hin Heq].
  apply value_eqb_eq in Heq. exfalso. now apply (Hno r).
Qed.

Lemma right_part_match (i j : nat) (right : DataFrame) (l r : row) :
  NoDup (map (cell j) (rows right)) ->
  In r (rows right) -> cell j r = cell i l ->
  right_part i j right l = remove_at j r.
Proof.
  intros Hnd Hin Heq.
  pose proof (matches_unique j right (cell i l) Hnd) as Hlen.
  assert (Hm : In r (matches (fun v => v) j right (cell i l))).
  { apply filter_In. split; [exact Hin|]. apply value_eqb_eq. now symmetry. }
  unfold right_part.
  destruct (matches (fun v => v) j right (cell i l)) as [|r0 [|r1 ms]]; simpl in *;
    [tauto | | lia].
  destruct Hm as [->|[]]. reflexivity.
Qed.

(** Within 2^53 nothing is rounded. *)

Lemma to_float64_exact (z : Z) : (Z.abs z <= 2 ^ 53)%Z -> to_float64 z = z.
Proof.
  intros Hz. unfold to_float64.
  destruct (Z.ltb_spec (Z.abs z) (2 ^ 53)) as [Hlt|Hge]; [reflexivity|].
  change (2 ^ 53)%Z with 9007199254740992%Z in *.
  assert (Hcases : z = 9007199254740992%Z \/ z = (-9007199254740992)%Z) by lia.
  destruct Hcases as [-> | ->]; reflexivity.
Qed.

Lemma as_float64_exact (v : value) : exact v -> as_float64 v = v.
Proof.
  destruct v; simpl; intros H; try reflexivity. now rewrite to_float64_exact.
Qed.

Lemma key_cast_exact (lkeys rkeys : list value) (v : value) :
  exact v -> key_cast lkeys rkeys v = v.
Proof.
  intros H. unfold key_cast.
  destruct (dtype_of lkeys), (dtype_of rkeys); try reflexivity;
    now apply as_float64_exact.
Qed.

Lemma cell_exact (i : nat) (r : row) : Forall exact r -> exact (cell i r).
Proof.
  intros H. unfold cell. destruct (nth_in_or_default i r VNull) as [Hin| ->].
  - rewrite Forall_forall in H. now apply H.
  - exact I.
Qed.

Lemma matches_exact (f : value -> value) (j : nat) (right : DataFrame) (k : value) :
  (forall v, exact v -> f v = v) ->
  exact_frame right -> exact k ->
  matches f j right k = matches (fun v => v) j right k.
Proof.
  intros Hf Hr Hk. unfold matches. apply filter_ext_in. intros r Hin.
  unfold exact_frame in Hr. rewrite Forall_forall in Hr.
  now rewrite (Hf k Hk), (Hf (cell j r) (cell_exact j r (Hr r Hin))).
Qed.

Lemma remove_at_exact (j : nat) (r : row) : Forall exact r -> Forall exact (remove_at j r).
Proof.
  intros H. unfold remove_at. apply Forall_app. split.
  - apply Forall_forall. intros v Hv. rewrite Forall_forall in H. apply H.
    rewrite <- (firstn_skipn j r). apply in_or_app. now left.
  - apply Forall_forall. intros v Hv. rewrite Forall_forall in H. apply H.
    rewrite <- (firstn_skipn (S j) r). apply in_or_app. now right.
Qed.

Lemma right_part_exact (i j : nat) (right : DataFrame) (l : row) :
  exact_frame right -> Forall exact (right_part i j right l).
Proof.
  intros Hr. unfold right_part.
  destruct (matches (fun v => v) j right (cell i l)) as [|r ms] eqn:E.
  - apply Forall_forall. intros v Hv. apply repeat_spec in Hv. now subst.
  - apply remove_at_exact. unfold exact_frame in Hr. rewrite Forall_forall in Hr.
    apply Hr. assert (Hin : In r (matches (fun v => v) j right (cell i l)))
      by (rewrite E; now left).
    apply filter_In in Hin. tauto.
Qed.

Lemma round_part_exact (flags : list bool) (part : row) :
  Forall exact part -> round_part flags part = part.
Proof.
  revert flags. induction part as [|v t IH]; intros flags H; [reflexivity|].
  inversion H as [|? ? Hv Ht]; subst. simpl.
  destruct flags as [|b fs]; [reflexivity|].
  rewrite (IH fs Ht). destruct b; [now rewrite as_float64_exact | reflexivity].
Qed.

Lemma join_row_unique (f : value -> value) (i j : nat) (right : DataFrame) (l : row) :
  (forall v, exact v -> f v = v) ->
  exact_frame right -> Forall exact l ->
  NoDup (map (cell j) (rows right)) ->
  join_row f i j right l = [(l, right_part i j right l)].
Proof.
  intros Hf Hr Hl Hnd.
  pose proof (matches_unique j right (cell i l) Hnd) as Hlen.
  unfold join_row, right_part.
  rewrite (matches_exact f j right (cell i l) Hf Hr (cell_exact i l Hl)).
  destruct (matches (fun v => v) j right (cell i l)) as [|r [|r' ms]]; simpl in *;
    [reflexivity | reflexivity | lia].
Qed.

(** When the merge goes through. *)

Lemma keys_compatible (lkeys rkeys : list value) :
  same_kind lkeys rkeys -> keys_incompatible lkeys rkeys = false.
Proof.
  unfold same_kind, keys_incompatible, numeric.
  intros [[Hl Hr]|(Hl1 & Hl2 & Hr1 & Hr2)];
    destruct lkeys, rkeys; try reflexivity.
  - apply andb_true_iff in Hl, Hr. destruct Hl as [Hl _], Hr as [Hr _].
    rewrite Hl, Hr. simpl. now rewrite andb_false_r.
  - rewrite Hl1, Hl2, Hr1, Hr2. reflexivity.
Qed.

Lemma new_dups_NoDup (new : list string) :
  NoDup new ->
  forall seen_old seen_new old,
    (forall x, In x seen_new -> ~ In x new) ->
    new_dups seen_old seen_new old new = false.
Proof.
  induction 1 as [|n ns Hn Hnd IH]; intros seen_old seen_new old Hseen.
  - destruct old; reflexivity.
  - destruct old as [|o os]; [reflexivity|]. simpl.
    assert (E : mem n seen_new = false).
    { destruct (mem n seen_new) eqn:E; [|reflexivity]. apply mem_In in E.
      exfalso. apply (Hseen n E). now left. }
    rewrite E. simpl. apply IH. intros x [<-|Hx]; [exact Hn|].
    intros Hin. apply (Hseen x Hx). now right.
Qed.

Lemma NoDup_map_on {A B : Type} (f : A -> B) (l : list A) :
  NoDup l ->
  (forall a b, In a l -> In b l -> f a = f b -> a = b) ->
  NoDup (map f l).
Proof.
  induction 1 as [|a l Ha Hnd IH]; simpl; intros Hinj; constructor.
  - intros Hin. apply in_map_iff in Hin. destruct Hin as (b & Hb & Hbl).
    assert (b = a) by (apply Hinj; auto). subst. contradiction.
  - apply IH. intros x y Hx Hy. apply Hinj; now right.
Qed.

Lemma length_append (a b : string) :
  String.length (a ++ b)%string = (String.length a + String.length b)%nat.
Proof. induction a as [|c a IH]; simpl; [reflexivity | now rewrite IH]. Qed.

Lemma append_cancel (a b s : string) : (a ++ s = b ++ s)%string -> a = b.
Proof.
  revert b. induction a as [|c a IH]; intros [|d b] E; simpl in E.
  - reflexivity.
  - exfalso. apply (f_equal String.length) in E. simpl in E.
    rewrite length_append in E. lia.
  - exfalso. apply (f_equal String.length) in E. simpl in E.
    rewrite length_append in E. lia.
  - injection E as -> E. f_equal. now apply IH.
Qed.

Lemma remove_at_In {A : Type} (j : nat) (l : list A) (x : A) :
  In x (remove_at j l) -> In x l.
Proof.
  unfold remove_at. intros H. apply in_app_or in H. destruct H as [H|H].
  - rewrite <- (firstn_skipn j l). apply in_or_app. now left.
  - rewrite <- (firstn_skipn (S j) l). apply in_or_app. now right.
Qed.

Lemma remove_at_NoDup {A : Type} (j : nat) (l : list A) (x : A) :
  NoDup l -> nth_error l j = Some x ->
  NoDup (remove_at j l) /\ ~ In x (remove_at j l).
Proof.
  revert j. induction l as [|a l IH]; intros j Hnd E; [destruct j; discriminate|].
  inversion Hnd as [|? ? Ha Hnd']; subst. destruct j as [|j]; simpl in E.
  - injection E as ->. unfold remove_at. simpl. split; assumption.
  - destruct (IH j Hnd' E) as [Hn Hx]. unfold remove_at in *. simpl. split.
    + constructor; [|exact Hn]. intros Hin. apply Ha.
      apply (remove_at_In j l a). exact Hin.
    + intros [->|Hin]; [|contradiction].
      apply Ha. eapply nth_error_In. exact E.
Qed.

Lemma labels_fresh_no_clash (left right : DataFrame) (on : string) (j : nat) :
  labels_fresh left right on ->
  nth_error (columns right) j = Some on ->
  let rcols := remove_at j (columns right) in
  new_dups [] [] (columns left)
    (map (fun c => if mem c rcols then (c ++ "_x")%string else c) (columns left))
  || new_dups [] [] rcols
       (map (fun c => if mem c (columns left) then (c ++ "_y")%string else c) rcols)
  = false.
Proof.
  intros (Hl & Hr & Hfresh) Hj rcols.
  destruct (remove_at_NoDup j (columns right) on Hr Hj) as [Hrn Hon].
  fold rcols in Hrn, Hon.
  assert (Hshared : forall c, In c (columns left) -> In c rcols ->
            ~ In (c ++ "_x")%string (columns left ++ columns right) /\
            ~ In (c ++ "_y")%string (columns left ++ columns right)).
  { intros c Hcl Hcr. apply Hfresh; [exact Hcl | now apply (remove_at_In j) |].
    intros ->. contradiction. }
  apply orb_false_iff. split; apply new_dups_NoDup; try (intros x []).
  - apply NoDup_map_on; [exact Hl|]. intros a b Ha Hb.
    destruct (mem a rcols) eqn:Ea, (mem b rcols) eqn:Eb; intros E.
    + now apply append_cancel in E.
    + apply mem_In in Ea. exfalso.
      apply (proj1 (Hshared a Ha Ea)). rewrite E. apply in_or_app. now left.
    + apply mem_In in Eb. exfalso.
      apply (proj1 (Hshared b Hb Eb)). rewrite <- E. apply in_or_app. now left.
    + exact E.
  - apply NoDup_map_on; [exact Hrn|]. intros a b Ha Hb.
    destruct (mem a (columns left)) eqn:Ea, (mem b (columns left)) eqn:Eb; intros E.
    + now apply append_cancel in E.
    + apply mem_In in Ea. exfalso.
      apply (proj2 (Hshared a Ea Ha)). rewrite E. apply in_or_app. right.
      now apply (remove_at_In j).
    + apply mem_In in Eb. exfalso.
      apply (proj2 (Hshared b Eb Hb)). rewrite <- E. apply in_or_app. right.
      now apply (remove_at_In j).
    + exact E.
Qed.

Example join_left_sample :
  join_left sample_rankings sample_competitors "competitor_id"
  = Ok {| columns := ["competitor_id"; "rank"; "points"; "name"; "country"];
          rows := [ [VInt 1; VInt 1; VInt 100; VStr "Alice"; VStr "France"];
                    [VInt 7; VInt 2; VInt 95; VNull; VNull];
                    [VInt 2; VInt 3; VInt 90; VStr "Bruno"; VStr "Spain"] ] |}.
Proof. reflexivity. Qed.

(** Integer keys against string keys: [ValueError]. *)
Example join_left_mixed_keys :
  join_left sample_rankings string_keyed "competitor_id"
  = Raise (ValueError "competitor_id").
Proof. reflexivity. Qed.

(** [name] becomes [name_x], which the left frame already has: [MergeError]. *)
Example join_left_suffix_clash :
  join_left suffixed_rankings sample_competitors "competitor_id" = Raise MergeError.
Proof. reflexivity. Qed.

(** A right column of integers that receives a null becomes [float64]. *)
Example join_left_null_fill_rounds :
  join_left two_rankings big_points "competitor_id"
  = Ok {| columns := ["competitor_id"; "rank"; "points"];
          rows := [ [VInt 1; VInt 1; VInt 9007199254740992];
                    [VInt 2; VInt 2; VNull] ] |}.
Proof. reflexivity. Qed.

(** C3, as stated, fails: a key that occurs twice on the right gives two
    output rows for one left row. *)
Lemma join_left_repeated_key :
  exists out,
    join_left one_ranking repeated_competitor "competitor_id" = Ok out /\
    List.length (rows out) = 2%nat /\
    List.length (rows out) <> List.length (rows one_ranking).
Proof.
  eexists. split; [reflexivity|]. split; [reflexivity|]. simpl. lia.
Qed.

(** C3, amended: for non-empty frames that both have the key column, with
    key columns of one kind (numbers on both sides or strings on both),
    labels whose suffixed forms are new, and integers within 2^53, when no
    key value occurs twice in the right frame, the join has one row per left
    row, in left order; each output row starts with the cells of its left
    row and continues with the non-key cells of the right row that has the
    same key, or with nulls when there is none.  No other right row reaches
    the output. *)
Theorem join_left_unique_keys (left right : DataFrame) (on : string) (i j : nat) :
  empty left = false -> empty right = false ->
  index_of on (columns left) = Some i ->
  index_of on (columns right) = Some j ->
  well_formed left ->
  NoDup (map (cell j) (rows right)) ->
  same_kind (map (cell i) (rows left)) (map (cell j) (rows right)) ->
  labels_fresh left right on ->
  exact_frame left -> exact_frame right ->
  exists out,
    join_left left right on = Ok out /\
    List.length (rows out) = List.length (rows left) /\
    map (firstn (List.length (columns left))) (rows out) = rows left /\
    forall n l, nth_error (rows left) n = Some l ->
      ((forall r, In r (rows right) -> cell j r <> cell i l) ->
       nth_error (rows out) n
       = Some (l ++ repeat VNull (List.length (columns right) - 1))) /\
      (forall r, In r (rows right) -> cell j r = cell i l ->
       nth_error (rows out) n = Some (l ++ remove_at j r)).
Proof.
  intros Hl Hr Hi Hj Hwf Hnd Hkind Hfresh Hxl Hxr.
  rewrite (join_left_merge left right on Hl Hr). unfold merge. rewrite Hi, Hj.
  rewrite (keys_compatible _ _ Hkind).
  rewrite (labels_fresh_no_clash left right on j Hfresh (index_of_nth _ _ _ Hj)).
  eexists. split; [reflexivity|]. cbn [rows columns].
  set (f := key_cast (map (cell i) (rows left)) (map (cell j) (rows right))).
  assert (Hf : forall v, exact v -> f v = v) by apply key_cast_exact.
  clearbody f.
  assert (Hpairs : flat_map (join_row f i j right) (rows left)
                   = map (fun l => (l, right_part i j right l)) (rows left)).
  { unfold exact_frame in Hxl. clear Hwf Hkind.
    induction Hxl as [|l ls Hx _ IH]; simpl; [reflexivity|].
    rewrite IH.
    rewrite (join_row_unique f i j right l Hf Hxr Hx Hnd). reflexivity. }
  rewrite Hpairs.
  assert (Hrows : forall flags,
            map (fun p => fst p ++ round_part flags (snd p))
                (map (fun l => (l, right_part i j right l)) (rows left))
            = map (fun l => l ++ right_part i j right l) (rows left)).
  { intros flags. rewrite map_map. apply map_ext. intros l. cbn [fst snd].
    now rewrite (round_part_exact flags _ (right_part_exact i j right l Hxr)). }
  rewrite Hrows.
  split; [apply length_map|]. split.
  - rewrite map_map. unfold well_formed in Hwf. clear Hkind Hpairs Hrows Hxl.
    induction Hwf as [|l ls Hlen _ IH]; simpl; [reflexivity|].
    f_equal; [|exact IH].
    rewrite <- Hlen, firstn_app, Nat.sub_diag, firstn_all. simpl.
    apply app_nil_r.
  - intros n l Hn. split.
    + intros Hno. rewrite nth_error_map. unfold row in *. rewrite Hn. simpl.
      now rewrite right_part_no_match.
    + intros r Hin Heq. rewrite nth_error_map. unfold row in *. rewrite Hn. simpl.
      now rewrite (right_part_match i j right l r).
Qed.

Lemma join_left_unique_keys_witness :
  exists out,
    join_left sample_rankings sample_competitors "competitor_id" = Ok out /\
    List.length (rows out) = 3%nat /\
    map (firstn 3) (rows out) = rows sample_rankings.
Proof.
  assert (Hwf : well_formed sample_rankings) by (repeat constructor).
  assert (Hnd : NoDup (map (cell 0) (rows sample_competitors))).
  { simpl. repeat constructor; simpl; intuition discriminate. }
  assert (Hkind : same_kind (map (cell 0) (rows sample_rankings))
                            (map (cell 0) (rows sample_competitors))).
  { left. split; reflexivity. }
  assert (Hfresh : labels_fresh sample_rankings sample_competitors "competitor_id").
  { split; [|split].
    - simpl. repeat constructor; simpl; intuition discriminate.
    - simpl. repeat constructor; simpl; intuition discriminate.
    - simpl. intros c Hc Hc' Hon. exfalso.
      destruct Hc as [<-|[<-|[<-|[]]]];
        destruct Hc' as [E|[E|[E|[]]]]; try discriminate E.
      now apply Hon. }
  assert (Hxl : exact_frame sample_rankings) by (repeat constructor; simpl; lia).
  assert (Hxr : exact_frame sample_competitors) by (repeat constructor; simpl; lia).
  destruct (join_left_unique_keys sample_rankings sample_competitors
              "competitor_id" 0 0 eq_refl eq_refl eq_refl eq_refl Hwf Hnd
              Hkind Hfresh Hxl Hxr)
    as (out & E & Hlen & Hleft & _).
  exists out. repeat split; assumption.
Defined.

(** C4, as stated, fails: with an empty right frame the left rows are not
    kept. *)
Lemma join_left_empty_right_drops_left :
  exists out,
    join_left one_ranking DataFrame_nil "competitor_id" = Ok out /\
    List.length (rows out) <> List.length (rows one_ranking).
Proof. eexists. split; [reflexivity|]. simpl. lia. Qed.

(** C4, amended: for any key, the join of an empty left frame with any right
    frame is the empty frame, and the join of any left frame with an empty
    right frame is the empty frame too: no rows and no columns. *)
Theorem join_left_empty_side (left right : DataFrame) (on : string) :
  (empty left = true -> join_left left right on = Ok DataFrame_nil) /\
  (empty right = true -> join_left left right on = Ok DataFrame_nil).
Proof.
  split; intros H; apply join_left_empty; [now left | now right].
Qed.

Lemma join_left_empty_side_witness :
  join_left DataFrame_nil sample_competitors "no_such_column" = Ok DataFrame_nil /\
  join_left sample_rankings DataFrame_nil "no_such_column" = Ok DataFrame_nil.
Proof.
  split.
  - apply (proj1 (join_left_empty_side DataFrame_nil sample_competitors _)).
    reflexivity.
  - apply (proj2 (join_left_empty_side sample_rankings DataFrame_nil _)).
    reflexivity.
Defined.

(** C5: when either frame is empty the join is the empty frame and the merge
    is not attempted (nothing is raised, whatever the key); and an empty
    frame goes through the filters and the top-10 step without an exception:
    the filters return it, the option lists are empty, and no top-10 table is
    built. *)
Theorem empty_is_first_class `{ArgSort} (left right df : DataFrame)
    (on c : string) (s : SessionState) :
  (empty left = true \/ empty right = true ->
   join_left left right on = Ok DataFrame_nil /\ empty DataFrame_nil = true) /\
  (empty df = true ->
   filtered_df s df = Ok df /\
   filtered_comp s df = Ok df /\
   options df c = Ok [] /\
   top10 df = Ok None).
Proof.
  split.
  - intros Hor. split; [now apply join_left_empty | reflexivity].
  - intros He. repeat split.
    + apply filter_by_off. rewrite He. simpl. apply andb_false_r.
    + apply filter_by_off. rewrite He. simpl. apply andb_false_r.
    + unfold options. now rewrite He.
    + unfold top10. now rewrite He.
Qed.

Lemma empty_is_first_class_witness :
  join_left DataFrame_nil sample_competitors "competitor_id" = Ok DataFrame_nil /\
  filtered_df (session true (VStr "France") (VStr "ATP")) DataFrame_nil = Ok DataFrame_nil /\
  @top10 stable_argsort DataFrame_nil = Ok None.
Proof.
  pose proof (@empty_is_first_class stable_argsort DataFrame_nil
                sample_competitors DataFrame_nil "competitor_id" "country"
                (session true (VStr "France") (VStr "ATP"))) as [Hj Hd].
  destruct (Hj (or_introl eq_refl)) as [Hj' _].
  destruct (Hd eq_refl) as (Hf & _ & _ & Ht).
  repeat split; assumption.
Defined.

(** * Sorting and the top 10 *)

Lemma nth_items (i : nat) (rs : list row) (k : nat) :
  nth k (map (cell i) rs) VNull = cell i (nth k rs []).
Proof.
  rewrite <- (map_nth (cell i)). f_equal. unfold cell. now destruct i.
Qed.

Lemma dropna_positions (items : list value) :
  map (fun k => nth k items VNull)
      (filter (fun k => negb (isna (nth k items VNull))) (seq 0 (List.length items)))
  = dropna items.
Proof.
  unfold dropna.
  rewrite <- (filter_map_swap (fun v => negb (isna v)) (fun k => nth k items VNull)).
  now rewrite map_nth_seq.
Qed.

Lemma filter_split_perm {A : Type} (p : A -> bool) (l : list A) :
  Permutation (filter (fun a => negb (p a)) l ++ filter p l) l.
Proof.
  induction l as [|a l IH]; simpl; [constructor|].
  destruct (p a); simpl.
  - rewrite <- Permutation_middle. now constructor.
  - now constructor.
Qed.

Lemma filter_none {A : Type} (p : A -> bool) (l : list A) :
  (forall a, In a l -> p a = false) -> filter p l = [].
Proof.
  induction l as [|a l IH]; simpl; intros H; [reflexivity|].
  rewrite (H a) by now left. apply IH. intros b Hb. apply H. now right.
Qed.

Lemma filter_all {A : Type} (p : A -> bool) (l : list A) :
  (forall a, In a l -> p a = true) -> filter p l = l.
Proof.
  induction l as [|a l IH]; simpl; intros H; [reflexivity|].
  rewrite (H a) by now left. f_equal. apply IH. intros b Hb. apply H. now right.
Qed.

Section SortValues.
Context `{ArgSort}.
Variable i : nat.
Variable rs : list row.

Let items : list value := map (cell i) rs.
Let key (k : nat) : value := nth k items VNull.
Let idx : list nat := seq 0 (List.length items).
Let non_nan_idx : list nat := filter (fun k => negb (isna (key k))) idx.
Let nan_idx : list nat := filter (fun k => isna (key k)) idx.
Let non_nans : list value := map key non_nan_idx.
Let order : list nat := map (fun p => nth p non_nan_idx 0%nat) (argsort non_nans).
Let indexer : list nat := order ++ nan_idx.
Let taken : list row := map (fun k => nth k rs []) indexer.

Hypothesis keys_comparable : comparable (dropna (map (cell i) rs)) = true.

Lemma non_nans_dropna : non_nans = dropna items.
Proof. apply dropna_positions. Qed.

Lemma argsort_in_range (p : nat) :
  In p (argsort non_nans) -> (p < List.length non_nan_idx)%nat.
Proof.
  intros Hp.
  apply (Permutation_in _ (argsort_perm non_nans
           (eq_ind_r (fun l => comparable l = true) keys_comparable non_nans_dropna))) in Hp.
  apply in_seq in Hp. unfold non_nans in Hp. rewrite length_map in Hp. lia.
Qed.

Lemma order_perm : Permutation order non_nan_idx.
Proof.
  unfold order.
  rewrite (argsort_perm non_nans)
    by (rewrite non_nans_dropna; exact keys_comparable).
  unfold non_nans. rewrite length_map. now rewrite map_nth_seq.
Qed.

Lemma indexer_perm : Permutation indexer idx.
Proof.
  unfold indexer. rewrite order_perm. apply filter_split_perm.
Qed.

Lemma taken_perm : Permutation taken rs.
Proof.
  unfold taken. rewrite indexer_perm. unfold idx, items.
  rewrite length_map. now rewrite map_nth_seq.
Qed.

Lemma taken_keys :
  map (cell i) taken
  = map (fun p => nth p non_nans VNull) (argsort non_nans) ++ map key nan_idx.
Proof.
  unfold taken, indexer. rewrite map_map, map_app. f_equal.
  - unfold order. rewrite map_map. apply map_ext_in. intros p Hp.
    rewrite <- nth_items. fold items. fold (key (nth p non_nan_idx 0%nat)).
    unfold non_nans.
    rewrite (nth_indep (map key non_nan_idx) VNull (key 0%nat))
      by (rewrite length_map; now apply argsort_in_range).
    symmetry. apply (map_nth key).
  - apply map_ext. intros k. symmetry. apply nth_items.
Qed.

Lemma sorted_keys_not_null :
  Forall (fun v => isna v = false)
         (map (fun p => nth p non_nans VNull) (argsort non_nans)).
Proof.
  apply Forall_forall. intros v Hv. apply in_map_iff in Hv.
  destruct Hv as (p & <- & Hp).
  assert (Hin : In (nth p non_nans VNull) non_nans).
  { apply nth_In. unfold non_nans. rewrite length_map. now apply argsort_in_range. }
  rewrite non_nans_dropna in Hin at 2. unfold dropna in Hin.
  apply filter_In in Hin. destruct Hin as [_ E]. now apply negb_true_iff in E.
Qed.

Lemma nan_keys_null : Forall (fun v => v = VNull) (map key nan_idx).
Proof.
  apply Forall_forall. intros v Hv. apply in_map_iff in Hv.
  destruct Hv as (k & <- & Hk). unfold nan_idx in Hk.
  apply filter_In in Hk. destruct Hk as [_ E]. now destruct (key k).
Qed.

Lemma taken_nulls :
  filter (fun r => isna (cell i r)) taken = filter (fun r => isna (cell i r)) rs.
Proof.
  assert (Hkey : forall k, isna (cell i (nth k rs [])) = isna (key k)).
  { intros k. unfold key, items. now rewrite nth_items. }
  transitivity (map (fun k => nth k rs []) nan_idx).
  - unfold taken, indexer. rewrite filter_map_swap, filter_app.
    rewrite (filter_none _ order), (filter_all _ nan_idx); [reflexivity| |].
    + intros k Hk. rewrite Hkey. unfold nan_idx in Hk.
      apply filter_In in Hk. tauto.
    + intros k Hk. rewrite Hkey.
      apply (Permutation_in _ order_perm) in Hk. unfold non_nan_idx in Hk.
      apply filter_In in Hk. destruct Hk as [_ E]. now apply negb_true_iff in E.
  - replace (filter (fun r => isna (cell i r)) rs)
      with (filter (fun r => isna (cell i r))
              (map (fun k => nth k rs []) (seq 0 (List.length rs))))
      by (now rewrite map_nth_seq).
    rewrite filter_map_swap.
    f_equal. unfold nan_idx, idx, items. rewrite length_map.
    apply filter_ext. intros k. symmetry. apply Hkey.
Qed.

Lemma sort_values_unfold (cols : list string) (by_ : string) :
  index_of by_ cols = Some i ->
  sort_values {| columns := cols; rows := rs |} by_
  = Ok {| columns := cols; rows := taken |}.
Proof.
  intros Hi. unfold sort_values. simpl. rewrite Hi.
  pose proof keys_comparable as Hc.
  rewrite <- (dropna_positions (map (cell i) rs)) in Hc.
  rewrite Hc. reflexivity.
Qed.

Lemma sort_values_spec (cols : list string) (by_ : string) :
  index_of by_ cols = Some i ->
  exists out xs ys,
    sort_values {| columns := cols; rows := rs |} by_
    = Ok {| columns := cols; rows := out |} /\
    Permutation out rs /\
    map (cell i) out = xs ++ ys /\
    Sorted (fun a b => value_le a b = true) xs /\
    Forall (fun v => isna v = false) xs /\
    Forall (fun v => v = VNull) ys /\
    filter (fun r => isna (cell i r)) out = filter (fun r => isna (cell i r)) rs.
Proof.
  intros Hi. exists taken. eexists. eexists.
  split; [now apply sort_values_unfold|].
  split; [apply taken_perm|].
  split; [apply taken_keys|].
  split; [apply argsort_sorted; rewrite non_nans_dropna; exact keys_comparable|].
  split; [apply sorted_keys_not_null|].
  split; [apply nan_keys_null | apply taken_nulls].
Qed.
End SortValues.

Lemma rank_le_trans (a b c : value) : rank_le a b -> rank_le b c -> rank_le a c.
Proof.
  destruct a, b, c; simpl; try tauto. lia.
Qed.

Lemma sorted_nulls (ys : list value) :
  Forall (fun v => v = VNull) ys -> Sorted rank_le ys.
Proof.
  induction ys as [|y ys IH]; intros Hn; constructor;
    inversion Hn as [|? ? -> Hn']; subst.
  - now apply IH.
  - destruct ys as [|y' ys]; constructor.
    inversion Hn' as [|? ? -> _]. exact I.
Qed.

Lemma sorted_ints_then_nulls (xs ys : list value) :
  Sorted (fun a b => value_le a b = true) xs ->
  Forall (fun v => is_int v = true) xs ->
  Forall (fun v => v = VNull) ys ->
  Sorted rank_le (xs ++ ys).
Proof.
  intros Hs Hint Hnull. induction Hs as [|a xs Hs IH Hhd]; simpl.
  - now apply sorted_nulls.
  - inversion Hint as [|? ? Ha Hxs]; subst.
    constructor; [now apply IH|].
    destruct xs as [|b xs]; simpl.
    + destruct Hnull as [|y ys ->]; constructor.
      now destruct a.
    + constructor. inversion Hhd as [|? ? Hab]; subst.
      inversion Hxs as [|? ? Hb _]; subst.
      destruct a, b; simpl in *; try discriminate. now apply Z.leb_le.
Qed.

Lemma Sorted_map {A B : Type} (R : B -> B -> Prop) (f : A -> B) (l : list A) :
  Sorted R (map f l) -> Sorted (fun a b => R (f a) (f b)) l.
Proof.
  induction l as [|a l IH]; simpl; intros Hs; [constructor|].
  inversion Hs as [|? ? Hs' Hhd]; subst.
  constructor; [now apply IH|].
  destruct l; constructor. now inversion Hhd.
Qed.

Lemma numeric_comparable (vs : list value) :
  Forall (fun v => is_str v = false) vs -> comparable (dropna vs) = true.
Proof.
  intros Hn. unfold comparable. apply orb_true_iff. left.
  apply forallb_forall. intros v Hv. unfold dropna in Hv.
  apply filter_In in Hv. destruct Hv as [Hin Hna].
  rewrite Forall_forall in Hn. specialize (Hn v Hin).
  now destruct v.
Qed.

Example stable_by_rank_tied :
  stable_by_rank 1 (rows tied)
  = [ [VInt 3; VInt 4; VInt 80]; [VInt 1; VInt 5; VInt 70]; [VInt 2; VInt 5; VInt 60] ].
Proof. reflexivity. Qed.

Example top10_tied_stable :
  @top10 stable_argsort tied
  = Ok (Some {| columns := columns tied; rows := stable_by_rank 1 (rows tied) |}).
Proof. reflexivity. Qed.

Example stable_by_rank_many_ties :
  map (cell 0) (firstn 10 (stable_by_rank 1 (rows many_ties)))
  = map VInt [27; 28; 29; 30; 31; 32; 33; 34; 35; 36]%Z.
Proof. reflexivity. Qed.

(** C6, as stated, fails: the order of rows with equal rank is left to the
    sort behind [sort_values], which is called with its default
    [kind="quicksort"].  For the forty rows of [many_ties], the last
    fourteen of them with rank 1, the sort interface does not give the first
    ten of these in their original order. *)
Lemma top10_ties_not_kept :
  ~ (forall S : ArgSort,
       @top10 S many_ties
       = Ok (Some {| columns := columns many_ties;
                     rows := firstn 10 (stable_by_rank 1 (rows many_ties)) |})).
Proof.
  intros Hall. specialize (Hall reversing_argsort).
  vm_compute in Hall. discriminate.
Qed.

(** C6, amended: for a non-empty frame with an integer-or-null rank column,
    the top-10 table is the first 10 rows of a rearrangement of the input
    rows that is ascending in rank with the null ranks last; the rows with a
    null rank keep their original relative order.  The relative order of
    rows with equal non-null rank is not fixed.  (For an empty frame no
    table is built.) *)
Theorem top10_sorted `{ArgSort} (df : DataFrame) (i : nat) :
  empty df = false ->
  index_of "rank" (columns df) = Some i ->
  Forall (fun r => is_str (cell i r) = false) (rows df) ->
  exists by_rank,
    top10 df = Ok (Some {| columns := columns df; rows := firstn 10 by_rank |}) /\
    Permutation by_rank (rows df) /\
    StronglySorted (fun r1 r2 => rank_le (cell i r1) (cell i r2)) by_rank /\
    filter (fun r => isna (cell i r)) by_rank
    = filter (fun r => isna (cell i r)) (rows df).
Proof.
  intros He Hi Hnum.
  assert (Hnum' : Forall (fun v => is_str v = false) (map (cell i) (rows df))).
  { apply Forall_forall. intros v Hv. apply in_map_iff in Hv.
    destruct Hv as (r & <- & Hr). rewrite Forall_forall in Hnum. now apply Hnum. }
  destruct (sort_values_spec i (rows df) (numeric_comparable _ Hnum')
              (columns df) "rank" Hi)
    as (out & xs & ys & Hsv & Hperm & Hcells & Hsorted & Hnn & Hnull & Hkeep).
  exists out. split; [|split; [exact Hperm|split; [|exact Hkeep]]].
  - unfold top10. rewrite He. simpl.
    destruct df as [cols rs]. simpl in *. now rewrite Hsv.
  - apply Sorted_StronglySorted.
    + intros r1 r2 r3. apply rank_le_trans.
    + apply Sorted_map. rewrite Hcells.
      apply sorted_ints_then_nulls; [exact Hsorted| |exact Hnull].
      apply Forall_forall. intros v Hv.
      assert (Hin : In v (map (cell i) (rows df))).
      { apply (Permutation_in v (Permutation_map (cell i) Hperm)).
        rewrite Hcells. apply in_or_app. now left. }
      rewrite Forall_forall in Hnum', Hnn.
      specialize (Hnum' v Hin). specialize (Hnn v Hv). now destruct v.
Qed.

Lemma top10_sorted_witness :
  exists by_rank,
    @top10 reversing_argsort tied
    = Ok (Some {| columns := columns tied; rows := firstn 10 by_rank |}) /\
    Permutation by_rank (rows tied) /\
    StronglySorted (fun r1 r2 => rank_le (cell 1 r1) (cell 1 r2)) by_rank /\
    filter (fun r => isna (cell 1 r)) by_rank
    = filter (fun r => isna (cell 1 r)) (rows tied).
Proof.
  apply (@top10_sorted reversing_argsort tied 1); [reflexivity | reflexivity |].
  repeat constructor.
Defined.

(** * Whole runs *)

Example run_sample_applied :
  @run_script stable_argsort (Ok sample_db) None (click_apply (VStr "France") VNull)
  = Ok (session true (VStr "France") VNull,
        {| country_list := [VStr "France"; VStr "Spain"];
           category_list := [VStr "ATP"];
           shown_rankings :=
             {| columns := ["competitor_id"; "rank"; "points"; "name"; "country"];
                rows := [ [VInt 1; VInt 1; VInt 100; VStr "Alice"; VStr "France"] ] |};
           shown_top10 :=
             Some {| columns := ["competitor_id"; "rank"; "points"; "name"; "country"];
                     rows := [ [VInt 1; VInt 1; VInt 100; VStr "Alice"; VStr "France"];
                               [VInt 2; VInt 2; VInt 90; VStr "Bruno"; VStr "Spain"] ] |};
           shown_venues := DataFrame_nil;
           shown_competitions :=
             {| columns := ["competition_id"; "category_id"; "category_name"];
                rows := [ [VInt 10; VInt 1; VStr "ATP"] ] |};
           hist_data :=
             {| columns := ["competitor_id"; "rank"; "points"; "name"; "country"];
                rows := [ [VInt 2; VInt 2; VInt 90; VStr "Bruno"; VStr "Spain"];
                          [VInt 1; VInt 1; VInt 100; VStr "Alice"; VStr "France"] ] |} |}).
Proof. reflexivity. Qed.

Lemma run_script_top10 `{ArgSort} (connect : result Connection)
    (sess : option SessionState) (ui : Interaction) (s : SessionState) (p : Page) :
  run_script connect sess ui = Ok (s, p) ->
  exists t,
    load_data connect = Ok t /\
    top10 (df_merged t) = Ok (shown_top10 p) /\
    hist_data p = df_merged t.
Proof.
  unfold run_script. intros E.
  destruct (load_data connect) as [t|e] eqn:L; simpl in E; [|discriminate].
  destruct (options (df_competitors t) "country"); simpl in E; [|discriminate].
  destruct (options (df_category t) "category_name"); simpl in E; [|discriminate].
  destruct (filtered_df _ (df_merged t)); simpl in E; [|discriminate].
  destruct (filtered_comp _ (comp_info t)); simpl in E; [|discriminate].
  destruct (top10 (df_merged t)) as [top|e] eqn:T; simpl in E; [|discriminate].
  injection E as _ <-. exists t. repeat split. exact T.
Qed.

Lemma run_session_pages `{ArgSort} (connect : result Connection)
    (uis : list Interaction) :
  forall sess sess' pages p,
    run_session connect sess uis = Ok (sess', pages) ->
    In p pages ->
    exists sess0 ui s, run_script connect sess0 ui = Ok (s, p).
Proof.
  induction uis as [|ui uis IH]; simpl; intros sess sess' pages p E Hin.
  - injection E as _ <-. destruct Hin.
  - destruct (run_script connect sess ui) as [[s1 p1]|e] eqn:E1; simpl in E; [|discriminate].
    destruct (run_session connect (Some s1) uis) as [[s2 ps]|e] eqn:E2; simpl in E; [|discriminate].
    injection E as _ <-. destruct Hin as [<-|Hin].
    + eauto.
    + eapply IH; eauto.
Qed.

(** C7: the top-10 table does not depend on the filter state.  Take any two
    sessions on the same data, each from any starting state and through any
    sequence of interactions (apply, clear, or none): every page of the one
    shows the same top-10 table as every page of the other, namely the one
    computed from the unfiltered [df_merged]. *)
Theorem top10_ignores_filters `{ArgSort} (connect : result Connection)
    (sess1 sess2 sess1' sess2' : option SessionState)
    (uis1 uis2 : list Interaction) (pages1 pages2 : list Page) (p1 p2 : Page) :
  run_session connect sess1 uis1 = Ok (sess1', pages1) ->
  run_session connect sess2 uis2 = Ok (sess2', pages2) ->
  In p1 pages1 -> In p2 pages2 ->
  shown_top10 p1 = shown_top10 p2 /\
  exists t, load_data connect = Ok t /\ top10 (df_merged t) = Ok (shown_top10 p1).
Proof.
  intros E1 E2 H1 H2.
  destruct (run_session_pages connect uis1 _ _ _ _ E1 H1) as (a1 & u1 & s1 & R1).
  destruct (run_session_pages connect uis2 _ _ _ _ E2 H2) as (a2 & u2 & s2 & R2).
  destruct (run_script_top10 _ _ _ _ _ R1) as (t1 & L1 & T1 & _).
  destruct (run_script_top10 _ _ _ _ _ R2) as (t2 & L2 & T2 & _).
  rewrite L1 in L2. injection L2 as <-.
  rewrite T1 in T2. injection T2 as T2.
  split; [exact T2|]. exists t1. now split.
Qed.

Lemma top10_ignores_filters_witness :
  exists s1 pages1 s2 pages2 p1 p2,
    @run_session stable_argsort (Ok sample_db) None browsing = Ok (s1, pages1) /\
    @run_session stable_argsort (Ok sample_db)
      (Some (session true (VStr "Spain") VNull)) [no_clicks] = Ok (s2, pages2) /\
    nth_error pages1 0 = Some p1 /\
    nth_error pages2 0 = Some p2 /\
    shown_rankings p1 <> shown_rankings p2 /\
    shown_top10 p1 = shown_top10 p2.
Proof.
  do 6 eexists.
  split; [vm_compute; reflexivity|].
  split; [vm_compute; reflexivity|].
  split; [reflexivity|].
  split; [reflexivity|].
  split; [discriminate|].
  refine (proj1 (@top10_ignores_filters stable_argsort (Ok sample_db)
                   None (Some (session true (VStr "Spain") VNull)) _ _
                   browsing [no_clicks] _ _ _ _ _ _ _ _)).
  - vm_compute. reflexivity.
  - vm_compute. reflexivity.
  - left. reflexivity.
  - left. reflexivity.
Defined.

(** * Database failures *)

Lemma DataFrame_of_well_formed (result : list record) :
  well_formed (DataFrame_of result).
Proof.
  unfold well_formed, DataFrame_of. simpl. apply Forall_forall.
  intros r Hr. apply in_map_iff in Hr. destruct Hr as (d & <- & _).
  apply length_map.
Qed.

Lemma get_connection_contract (connect : result Connection) :
  driver_contract connect ->
  (exists conn, connect = Ok conn /\ get_connection connect = Ok (Some conn)) \/
  (exists msg, connect = Raise (PymysqlError msg) /\ get_connection connect = Ok None).
Proof.
  intros [Hc _]. destruct connect as [conn|e].
  - left. eauto.
  - right. destruct (Hc e eq_refl) as [msg ->]. eauto.
Qed.

(** An exception that is not a [pymysql.Error] is not caught. *)
Example fetch_table_other_exception :
  fetch_table (Ok (fun _ => Raise TypeError)) "SELECT * FROM venues" = Raise TypeError.
Proof. reflexivity. Qed.

(** C8, as stated, fails: lines 19 and 39 catch [pymysql.Error] only.  An
    exception of another class, raised while the connection is opened or
    while the query runs, leaves [fetch_table] and ends the run of the
    script. *)
Lemma fetch_table_lets_others_through :
  fetch_table (Raise (RuntimeError "not a pymysql.Error")) "SELECT * FROM competitors"
  = Raise (RuntimeError "not a pymysql.Error") /\
  fetch_table (Ok (fun _ => Raise (RuntimeError "not a pymysql.Error")))
              "SELECT * FROM competitors"
  = Raise (RuntimeError "not a pymysql.Error") /\
  @run_script stable_argsort (Raise (RuntimeError "not a pymysql.Error")) None no_clicks
  = Raise (RuntimeError "not a pymysql.Error").
Proof. repeat split. Qed.

(** C8, amended: [fetch_table] absorbs the driver's own errors and nothing
    else.  When opening the connection fails with a [pymysql.Error], every
    query gives the empty frame, every loaded table and every derived view
    is the empty frame, and the run of the script ends normally with empty
    views, whatever the session state and the interaction.  When the query
    fails with a [pymysql.Error], the result is the empty frame.  Every frame
    that is returned is well formed.  What [fetch_table] raises is never a
    [pymysql.Error]; so with a driver that fails only with [pymysql.Error]
    it returns a frame for every query. *)
Theorem fetch_table_absorbs_pymysql_errors `{ArgSort} (connect : result Connection)
    (query : string) :
  ((exists msg, connect = Raise (PymysqlError msg)) ->
   fetch_table connect query = Ok DataFrame_nil /\
   load_data connect = Ok no_tables /\
   forall sess ui,
     run_script connect sess ui = Ok (sidebar ui (init_session sess), blank_page)) /\
  (forall conn msg, connect = Ok conn -> conn query = Raise (PymysqlError msg) ->
     fetch_table connect query = Ok DataFrame_nil) /\
  (forall df, fetch_table connect query = Ok df -> well_formed df) /\
  (forall e, fetch_table connect query = Raise e -> is_pymysql e = false) /\
  (driver_contract connect -> exists df, fetch_table connect query = Ok df).
Proof.
  split; [|split; [|split; [|split]]].
  - intros [msg ->]. split; [reflexivity|]. split; [reflexivity|].
    intros sess ui. unfold run_script. simpl.
    assert (Hf : forall c a v, filter_by c a v DataFrame_nil = Ok DataFrame_nil).
    { intros c a v. apply filter_by_off. simpl. apply andb_false_r. }
    unfold filtered_df, filtered_comp. rewrite !Hf. reflexivity.
  - intros conn msg -> Eq. unfold fetch_table. simpl. now rewrite Eq.
  - intros df. unfold fetch_table. destruct connect as [conn|e]; simpl.
    + destruct (conn query) as [result|e].
      * intros E. injection E as <-. apply DataFrame_of_well_formed.
      * destruct e; intros E; try discriminate. injection E as <-. constructor.
    + destruct e; intros E; try discriminate. injection E as <-. constructor.
  - intros e. unfold fetch_table. destruct connect as [conn|e0]; simpl.
    + destruct (conn query) as [result|e1]; [discriminate|].
      destruct e1; intros E; try discriminate; now injection E as <-.
    + destruct e0; intros E; try discriminate; now injection E as <-.
  - intros Hd.
    destruct (get_connection_contract connect Hd) as [(conn & -> & _)|(msg & -> & _)].
    + unfold fetch_table. simpl. destruct (conn query) as [rs|e] eqn:Eq; [eauto|].
      destruct (proj2 Hd conn query eq_refl e Eq) as [msg ->]. eauto.
    + eexists. reflexivity.
Qed.

Lemma sample_db_contract : driver_contract (Ok sample_db).
Proof.
  split.
  - intros e E. discriminate.
  - intros conn query E e. injection E as <-. unfold sample_db.
    repeat (destruct (String.eqb query _); [intros E; try discriminate|]).
    + injection E as <-. eauto.
    + discriminate.
Qed.

Lemma fetch_table_absorbs_pymysql_errors_witness :
  fetch_table (Ok sample_db) "SELECT * FROM complexes" = Ok DataFrame_nil /\
  @run_script stable_argsort (Raise (PymysqlError "Can't connect to MySQL server"))
     (Some (session true (VStr "France") (VStr "ATP"))) no_clicks
  = Ok (session true (VStr "France") (VStr "ATP"), blank_page) /\
  exists df, fetch_table (Ok sample_db) "SELECT * FROM categories" = Ok df.
Proof.
  split; [|split].
  - exact (proj1 (proj2 (@fetch_table_absorbs_pymysql_errors stable_argsort
                           (Ok sample_db) "SELECT * FROM complexes"))
             sample_db "Table 'Tennis_Game.complexes' doesn't exist"
             eq_refl eq_refl).
  - apply (proj1 (@fetch_table_absorbs_pymysql_errors stable_argsort
                    (Raise (PymysqlError "Can't connect to MySQL server"))
                    "SELECT * FROM venues")).
    eauto.
  - exact (proj2 (proj2 (proj2 (proj2
             (@fetch_table_absorbs_pymysql_errors stable_argsort
                (Ok sample_db) "SELECT * FROM categories"))))
             sample_db_contract).
Defined.

(** * Frames built from fetched records *)

Lemma add_key_steps (ks acc : list string) :
  let out := fold_left (fun a k => if mem k a then a else a ++ [k]) ks acc in
  (NoDup acc -> NoDup out) /\
  (forall c, In c out <-> In c acc \/ In c ks).
Proof.
  revert acc. induction ks as [|k ks IH]; simpl; intros acc.
  - split; [tauto|]. intros c. tauto.
  - destruct (mem k acc) eqn:E.
    + destruct (IH acc) as [Hn Hi]. split; [exact Hn|].
      intros c. rewrite Hi. apply mem_In in E.
      split; [tauto|]. intros [H|[<-|H]]; tauto.
    + destruct (IH (acc ++ [k])) as [Hn Hi]. split.
      * intros Hacc. apply Hn. apply NoDup_app; [exact Hacc | repeat constructor; tauto |].
        intros a Ha [<-|[]]. apply mem_In in Ha. congruence.
      * intros c. rewrite Hi, in_app_iff. simpl. tauto.
Qed.

Lemma record_columns (rs : list record) (acc : list string) :
  let out := fold_left add_keys rs acc in
  (NoDup acc -> NoDup out) /\
  (forall c, In c out <-> In c acc \/ exists r, In r rs /\ In c (map fst r)).
Proof.
  revert acc. induction rs as [|r rs IH]; simpl; intros acc.
  - split; [tauto|]. intros c. split; [tauto|]. intros [H|(r & [] & _)]. exact H.
  - destruct (IH (add_keys acc r)) as [Hn Hi].
    destruct (add_key_steps (map fst r) acc) as [Hn' Hi']. split.
    + intros Hacc. apply Hn. now apply Hn'.
    + intros c. rewrite Hi. unfold add_keys. rewrite Hi'. split.
      * intros [[H|H]|(r' & Hr' & Hc)]; eauto.
      * intros [H|(r' & [<-|Hr'] & Hc)]; eauto.
Qed.

Lemma index_of_mem (c : string) (cols : list string) :
  index_of c cols = None <-> ~ In c cols.
Proof.
  induction cols as [|c' cols IH]; simpl; [tauto|].
  destruct (String.eqb c c') eqn:Ec.
  - apply String.eqb_eq in Ec. subst. split; [discriminate|]. tauto.
  - apply String.eqb_neq in Ec.
    destruct (index_of c cols) as [k|].
    + split; [discriminate|]. intros H. exfalso.
      assert (Hn : ~ In c cols) by tauto.
      apply IH in Hn. discriminate.
    + split; [|reflexivity]. intros _ [E|H]; [congruence|]. now apply IH.
Qed.

Lemma cell_map_get (r : record) (cols : list string) (c : string) (i : nat) :
  nth_error cols i = Some c -> cell i (map (get r) cols) = get r c.
Proof.
  intros E. unfold cell. apply nth_error_nth.
  rewrite nth_error_map. unfold record in *. now rewrite E.
Qed.

Lemma stored_exact (column : list value) (v : value) : exact v -> stored column v = v.
Proof.
  intros H. unfold stored. destruct (dtype_of column); try reflexivity.
  now apply as_float64_exact.
Qed.

Lemma get_exact (r : record) (c : string) :
  Forall (fun kv => exact (snd kv)) r -> exact (get r c).
Proof.
  intros H. unfold get.
  destruct (find (fun kv => String.eqb (fst kv) c) r) as [kv|] eqn:E; [|exact I].
  apply find_some in E. rewrite Forall_forall in H. now apply H.
Qed.

Example to_float64_rounds :
  to_float64 9007199254740993 = 9007199254740992%Z /\
  to_float64 (-9007199254740995) = (-9007199254740996)%Z /\
  to_float64 9007199254740992 = 9007199254740992%Z.
Proof. repeat split. Qed.

(** X1: the frame built from the fetched dicts has one row per dict and
    pairwise distinct column labels, which are exactly the keys that occur in
    some dict; looking a column up in a row gives what the dict holds under
    that key (null when the dict lacks it) as the column keeps it: unchanged,
    except that in a column of integers and nulls an integer beyond 2^53 in
    magnitude comes back as the nearest double. *)
Theorem DataFrame_of_lookup (result : list record) :
  NoDup (columns (DataFrame_of result)) /\
  List.length (rows (DataFrame_of result)) = List.length result /\
  (forall c, In c (columns (DataFrame_of result)) <->
             exists r, In r result /\ In c (map fst r)) /\
  (forall n r c i,
     nth_error result n = Some r ->
     index_of c (columns (DataFrame_of result)) = Some i ->
     exists rw, nth_error (rows (DataFrame_of result)) n = Some rw /\
                cell i rw = stored (map (fun r' => get r' c) result) (get r c) /\
                (exact (get r c) -> cell i rw = get r c)).
Proof.
  destruct (record_columns result []) as [Hn Hi]. simpl in Hn, Hi.
  unfold DataFrame_of. simpl. repeat split.
  - apply Hn. constructor.
  - apply length_map.
  - intros H. apply Hi in H. destruct H as [[]|H]. exact H.
  - intros H. apply Hi. now right.
  - intros n r c i En Ei.
    assert (Hcell : cell i (map (fun c0 => stored (map (fun r' => get r' c0) result) (get r c0))
                              (fold_left add_keys result []))
                    = stored (map (fun r' => get r' c) result) (get r c)).
    { unfold cell. apply nth_error_nth. rewrite nth_error_map.
      now rewrite (index_of_nth _ _ _ Ei). }
    exists (map (fun c0 => stored (map (fun r' => get r' c0) result) (get r c0))
                (fold_left add_keys result [])).
    split; [|split].
    + rewrite nth_error_map. unfold record in *. rewrite En. reflexivity.
    + exact Hcell.
    + intros Hex. etransitivity; [exact Hcell|]. now apply stored_exact.
Qed.

Lemma DataFrame_of_lookup_witness :
  (exists rw, nth_error (rows (DataFrame_of ragged_records)) 1 = Some rw /\
              cell 1 rw = VNull /\ cell 2 rw = VStr "Spain") /\
  (exists rw, nth_error (rows (DataFrame_of big_id_records)) 0 = Some rw /\
              cell 0 rw = VInt 9007199254740992).
Proof.
  split.
  2:{ destruct (proj2 (proj2 (proj2 (DataFrame_of_lookup big_id_records)))
                  0%nat [("competitor_id", VInt 9007199254740993)]
                  "competitor_id" 0%nat eq_refl eq_refl) as (rw & E & Hcell & _).
      exists rw. split; [exact E | exact Hcell]. }
  destruct (proj2 (proj2 (proj2 (DataFrame_of_lookup ragged_records)))
              1%nat [("competitor_id", VInt 2); ("country", VStr "Spain")]
              "name" 1%nat eq_refl eq_refl) as (rw & E & _ & Hname).
  destruct (proj2 (proj2 (proj2 (DataFrame_of_lookup ragged_records)))
              1%nat [("competitor_id", VInt 2); ("country", VStr "Spain")]
              "country" 2%nat eq_refl eq_refl) as (rw' & E' & _ & Hcountry).
  rewrite E in E'. injection E' as <-.
  exists rw. split; [exact E|]. split; [exact (Hname I) | exact (Hcountry I)].
Defined.

Lemma add_keys_known (ks acc : list string) :
  incl ks acc ->
  fold_left (fun a k => if mem k a then a else a ++ [k]) ks acc = acc.
Proof.
  induction ks as [|k ks IH]; simpl; intros Hincl; [reflexivity|].
  assert (E : mem k acc = true) by (apply mem_In, Hincl; now left).
  rewrite E. apply IH. intros c Hc. apply Hincl. now right.
Qed.

Lemma add_keys_fresh (ks acc : list string) :
  NoDup (acc ++ ks) ->
  fold_left (fun a k => if mem k a then a else a ++ [k]) ks acc = acc ++ ks.
Proof.
  revert acc. induction ks as [|k ks IH]; simpl; intros acc Hn.
  - now rewrite app_nil_r.
  - assert (E : mem k acc = false).
    { destruct (mem k acc) eqn:E; [|reflexivity]. apply mem_In in E.
      apply NoDup_remove_2 in Hn. exfalso. apply Hn. apply in_or_app. now left. }
    rewrite E. rewrite IH; rewrite <- app_assoc; simpl; [reflexivity | exact Hn].
Qed.

Lemma get_values (r : record) :
  NoDup (map fst r) -> map (get r) (map fst r) = map snd r.
Proof.
  induction r as [|[k v] r IH]; simpl; intros Hn; [reflexivity|].
  inversion Hn as [|? ? Hk Hn']; subst.
  unfold get at 1. simpl. rewrite String.eqb_refl. simpl. f_equal.
  rewrite <- (IH Hn'). apply map_ext_in. intros c Hc.
  unfold get. simpl.
  destruct (String.eqb k c) eqn:E; [|reflexivity].
  apply String.eqb_eq in E. subst. contradiction.
Qed.

(** X2: when every fetched dict has the same keys in the same order (what a
    [DictCursor] returns for one query) and holds no integer beyond 2^53 in
    magnitude, the frame's columns are those keys and each row is the dict's
    values in that order: nothing is reordered, dropped, filled in or
    rounded. *)
Theorem DataFrame_of_uniform (result : list record) (keys : list string) :
  result <> [] ->
  NoDup keys ->
  Forall (fun r => map fst r = keys) result ->
  Forall (fun r => Forall (fun kv => exact (snd kv)) r) result ->
  DataFrame_of result = {| columns := keys; rows := map (map snd) result |}.
Proof.
  intros Hne Hn Hall Hex. unfold DataFrame_of.
  assert (Hcols : fold_left add_keys result [] = keys).
  { destruct result as [|r rs]; [congruence|]. simpl.
    inversion Hall as [|? ? Hr Hrs]; subst.
    unfold add_keys at 2. rewrite add_keys_fresh by exact Hn. simpl.
    clear Hne Hall Hex. induction rs as [|r' rs IH]; simpl; [reflexivity|].
    inversion Hrs as [|? ? Hr' Hrs']; subst.
    unfold add_keys at 2. rewrite Hr'.
    rewrite add_keys_known by apply incl_refl. now apply IH. }
  rewrite Hcols. f_equal. apply map_ext_in. intros r Hr.
  rewrite Forall_forall in Hall, Hex.
  transitivity (map (get r) keys).
  - apply map_ext. intros c. apply stored_exact, get_exact, Hex, Hr.
  - rewrite <- (Hall r Hr). apply get_values. now rewrite (Hall r Hr).
Qed.

Lemma DataFrame_of_uniform_witness :
  DataFrame_of uniform_records = sample_rankings.
Proof.
  apply (DataFrame_of_uniform uniform_records ["competitor_id"; "rank"; "points"]).
  - discriminate.
  - repeat constructor; simpl; intuition discriminate.
  - repeat constructor.
  - repeat constructor; simpl; lia.
Defined.

(** * What [fetch_table] returns and raises *)

Lemma DataFrame_of_empty (result : list record) :
  empty (DataFrame_of result) = true <-> forall r, In r result -> r = [].
Proof.
  assert (Hlen : List.length (rows (DataFrame_of result)) = List.length result)
    by apply length_map.
  assert (Hcols : forall c, In c (columns (DataFrame_of result)) <->
                            exists r, In r result /\ In c (map fst r)).
  { intros c. destruct (record_columns result []) as [_ Hi]. simpl in Hi.
    unfold DataFrame_of. simpl. rewrite Hi. split; [|now right].
    intros [[]|H]. exact H. }
  unfold empty. split.
  - intros He r Hr. destruct r as [|[k v] r]; [reflexivity|]. exfalso.
    assert (Hin : In k (columns (DataFrame_of result))).
    { apply Hcols. exists ((k, v) :: r). split; [exact Hr | now left]. }
    destruct (columns (DataFrame_of result)) as [|c cs]; [destruct Hin|].
    destruct (rows (DataFrame_of result)) as [|rw rws]; [|discriminate].
    destruct result; [destruct Hr | discriminate].
  - intros Hall.
    destruct (columns (DataFrame_of result)) as [|c cs] eqn:Ec; [reflexivity|].
    exfalso. assert (Hin : In c (c :: cs)) by now left.
    apply Hcols in Hin. destruct Hin as (r & Hr & Hc).
    rewrite (Hall r Hr) in Hc. destruct Hc.
Qed.

(** X3: over a working connection and a query that succeeds, [fetch_table]
    returns the frame of the fetched dicts, and that frame counts as empty
    exactly when no fetched dict carries a key; in particular a table without
    rows gives the same frame as a failed query, [pd.DataFrame()]. *)
Theorem fetch_table_fetched (conn : Connection) (query : string)
    (result : list record) :
  conn query = Ok result ->
  fetch_table (Ok conn) query = Ok (DataFrame_of result) /\
  (empty (DataFrame_of result) = true <-> forall r, In r result -> r = []) /\
  (result = [] -> DataFrame_of result = DataFrame_nil).
Proof.
  intros E. unfold fetch_table. simpl. rewrite E. repeat split.
  - apply DataFrame_of_empty.
  - apply DataFrame_of_empty.
  - intros ->. reflexivity.
Qed.

Lemma fetch_table_fetched_witness :
  fetch_table (Ok sample_db) "SELECT * FROM venues" = Ok DataFrame_nil /\
  exists df, fetch_table (Ok sample_db) "SELECT * FROM categories" = Ok df /\
             empty df = false.
Proof.
  split.
  - exact (proj1 (fetch_table_fetched sample_db "SELECT * FROM venues" [] eq_refl)).
  - eexists. split.
    + exact (proj1 (fetch_table_fetched sample_db "SELECT * FROM categories" _ eq_refl)).
    + reflexivity.
Defined.

(** X4: [fetch_table] raises exactly the exceptions of the driver that are
    not a [pymysql.Error], unchanged, whether they come from opening the
    connection or from running the query; a [pymysql.Error] never comes out
    of it. *)
Theorem fetch_table_raises (connect : result Connection) (query : string) (e : exn) :
  fetch_table connect query = Raise e <->
  is_pymysql e = false /\
  (connect = Raise e \/ exists conn, connect = Ok conn /\ conn query = Raise e).
Proof.
  unfold fetch_table. destruct connect as [conn|e0]; simpl.
  - destruct (conn query) as [rs|e1] eqn:Eq.
    + split; [discriminate|]. intros [_ [H|(c & Hc & Hq)]]; [discriminate|].
      injection Hc as <-. congruence.
    + split.
      * intros H. destruct e1; simpl in H; try discriminate;
          injection H as <-; (split; [reflexivity|]); right; eauto.
      * intros [Hp [H|(c & Hc & Hq)]]; [discriminate|].
        injection Hc as <-. rewrite Eq in Hq. injection Hq as <-.
        destruct e1; simpl in *; try reflexivity; discriminate.
  - split.
    + intros H. destruct e0; simpl in H; try discriminate;
        injection H as <-; (split; [reflexivity|]); now left.
    + intros [Hp [H|(c & Hc & _)]]; [|discriminate].
      injection H as <-. destruct e0; simpl in *; try reflexivity; discriminate.
Qed.

Lemma fetch_table_raises_witness :
  fetch_table (Ok (fun _ => Raise (KeyError "id"))) "SELECT * FROM venues"
  = Raise (KeyError "id").
Proof.
  apply (proj2 (fetch_table_raises (Ok (fun _ => Raise (KeyError "id")))
                  "SELECT * FROM venues" (KeyError "id"))).
  split; [reflexivity|]. right. eexists. split; reflexivity.
Defined.

(** * More on the joins *)

Lemma index_of_lt (c : string) (cols : list string) (i : nat) :
  index_of c cols = Some i -> (i < List.length cols)%nat.
Proof.
  intros E. apply index_of_nth in E. apply nth_error_Some. congruence.
Qed.

Lemma remove_at_length {A : Type} (j : nat) (l : list A) :
  (j < List.length l)%nat ->
  List.length (remove_at j l) = (List.length l - 1)%nat.
Proof.
  intros Hj. unfold remove_at.
  rewrite length_app, length_firstn, length_skipn. lia.
Qed.

Lemma round_part_length (flags : list bool) (part : row) :
  List.length (round_part flags part) = List.length part.
Proof.
  revert flags. induction part as [|v t IH]; intros flags; [reflexivity|].
  simpl. destruct flags; simpl; [reflexivity | now rewrite IH].
Qed.

Lemma join_row_shape (f : value -> value) (i j : nat) (right : DataFrame)
    (l : row) (p : row * row) :
  well_formed right ->
  (j < List.length (columns right))%nat ->
  In p (join_row f i j right l) ->
  fst p = l /\ List.length (snd p) = (List.length (columns right) - 1)%nat.
Proof.
  intros Hwf Hj Hin. unfold join_row in Hin.
  destruct (matches f j right (cell i l)) as [|m ms] eqn:E.
  - destruct Hin as [<-|[]]. split; [reflexivity|]. apply repeat_length.
  - apply in_map_iff in Hin. destruct Hin as (r & <- & Hr).
    split; [reflexivity|]. simpl.
    rewrite <- E in Hr. unfold matches in Hr. apply filter_In in Hr.
    unfold well_formed in Hwf. rewrite Forall_forall in Hwf.
    rewrite remove_at_length; rewrite (Hwf r (proj1 Hr)); [reflexivity | exact Hj].
Qed.

Lemma merge_ok_inv (left right out : DataFrame) (on : string) :
  merge left right on = Ok out ->
  exists i j,
    index_of on (columns left) = Some i /\
    index_of on (columns right) = Some j /\
    let f := key_cast (map (cell i) (rows left)) (map (cell j) (rows right)) in
    let pairs := flat_map (join_row f i j right) (rows left) in
    List.length (columns out)
    = (List.length (columns left) + List.length (remove_at j (columns right)))%nat /\
    rows out = map (fun p => fst p ++ round_part (null_filled j right (map snd pairs))
                                                 (snd p)) pairs.
Proof.
  unfold merge. intros E.
  destruct (index_of on (columns left)) as [i|]; [|discriminate].
  destruct (index_of on (columns right)) as [j|]; [|discriminate].
  destruct (keys_incompatible _ _); [discriminate|].
  destruct (new_dups _ _ _ _ || new_dups _ _ _ _); [discriminate|].
  injection E as <-. exists i, j. cbn [columns rows].
  repeat split. now rewrite length_app, !length_map.
Qed.

(** X5: a joined view of well-formed frames is a well-formed frame again:
    either [pd.DataFrame()], or a frame with the left columns followed by the
    right columns without the key, one cell per column in every row. *)
Theorem join_left_well_formed (left right out : DataFrame) (on : string) :
  well_formed left -> well_formed right ->
  join_left left right on = Ok out ->
  well_formed out /\
  (out = DataFrame_nil \/
   List.length (columns out)
   = (List.length (columns left) + (List.length (columns right) - 1))%nat).
Proof.
  intros Hl Hr E. unfold join_left in E.
  destruct (negb (empty left) && negb (empty right)).
  - destruct (merge_ok_inv _ _ _ _ E) as (i & j & Hi & Hj & Hcols & Hrows).
    pose proof (index_of_lt _ _ _ Hj) as Hjlt.
    rewrite remove_at_length in Hcols by exact Hjlt. split; [|now right].
    unfold well_formed. rewrite Hrows, Hcols. apply Forall_forall. intros o Ho.
    apply in_map_iff in Ho. destruct Ho as (p & <- & Hp).
    apply in_flat_map in Hp. destruct Hp as (l & Hlin & Hp).
    destruct (join_row_shape _ i j right l p Hr Hjlt Hp) as [Hfst Hlen].
    unfold well_formed in Hl. rewrite Forall_forall in Hl. cbv beta.
    rewrite length_app, round_part_length. unfold row in *.
    rewrite Hlen, Hfst. f_equal. exact (Hl l Hlin).
  - injection E as <-. split; [constructor | now left].
Qed.

Lemma join_left_well_formed_witness :
  exists out,
    join_left sample_rankings sample_competitors "competitor_id" = Ok out /\
    well_formed out /\ List.length (columns out) = 5%nat.
Proof.
  eexists. split; [reflexivity|].
  assert (Hl : well_formed sample_rankings) by (repeat constructor).
  assert (Hr : well_formed sample_competitors) by (repeat constructor).
  destruct (join_left_well_formed sample_rankings sample_competitors _
              "competitor_id" Hl Hr eq_refl) as [Hwf [Hnil|Hlen]].
  - discriminate.
  - split; [exact Hwf | exact Hlen].
Defined.

Lemma merge_raise (left right : DataFrame) (on : string) (e : exn) :
  merge left right on = Raise e ->
  (e = KeyError on /\ (~ In on (columns left) \/ ~ In on (columns right))) \/
  (e = ValueError on /\ In on (columns left) /\ In on (columns right)) \/
  (e = MergeError /\ In on (columns left) /\ In on (columns right)).
Proof.
  unfold merge.
  destruct (index_of on (columns left)) as [i|] eqn:Ei.
  - assert (Hl : In on (columns left)).
    { apply index_of_nth in Ei. eapply nth_error_In. exact Ei. }
    destruct (index_of on (columns right)) as [j|] eqn:Ej.
    + assert (Hr : In on (columns right)).
      { apply index_of_nth in Ej. eapply nth_error_In. exact Ej. }
      destruct (keys_incompatible _ _).
      * intros E. injection E as <-. right. left. auto.
      * destruct (new_dups _ _ _ _ || new_dups _ _ _ _); [|discriminate].
        intros E. injection E as <-. right. right. auto.
    + apply index_of_mem in Ej. intros E. injection E as <-. left. auto.
  - apply index_of_mem in Ei. intros E. injection E as <-. left. auto.
Qed.

Lemma join_left_raise (left right : DataFrame) (on : string) (e : exn) :
  join_left left right on = Raise e ->
  e = KeyError on \/ e = ValueError on \/ e = MergeError.
Proof.
  unfold join_left.
  destruct (negb (empty left) && negb (empty right)); [|discriminate].
  intros E. apply merge_raise in E. tauto.
Qed.

(** X6: a guarded merge raises only when both frames are non-empty, and then
    only [KeyError] naming the join key, [ValueError] or [MergeError]; it
    raises that [KeyError] exactly when one of the frames lacks the key
    column; integer keys against string keys give the [ValueError]; and with
    the key on both sides, key columns of one kind and labels whose suffixed
    forms are new, it returns a frame. *)
Theorem join_left_raises (left right : DataFrame) (on : string) :
  (forall e, join_left left right on = Raise e ->
     empty left = false /\ empty right = false /\
     (e = KeyError on \/ e = ValueError on \/ e = MergeError)) /\
  (join_left left right on = Raise (KeyError on) <->
   empty left = false /\ empty right = false /\
   (~ In on (columns left) \/ ~ In on (columns right))) /\
  (forall i j,
     empty left = false -> empty right = false ->
     index_of on (columns left) = Some i ->
     index_of on (columns right) = Some j ->
     (numeric (map (cell i) (rows left)) = true /\
      has_int (map (cell j) (rows right)) = false /\
      has_str (map (cell j) (rows right)) = true ->
      join_left left right on = Raise (ValueError on)) /\
     (same_kind (map (cell i) (rows left)) (map (cell j) (rows right)) ->
      labels_fresh left right on ->
      exists out, join_left left right on = Ok out)).
Proof.
  split; [|split].
  - intros e E. pose proof (join_left_raise _ _ _ _ E) as He.
    unfold join_left in E.
    destruct (empty left), (empty right); simpl in E; try discriminate.
    auto.
  - unfold join_left.
    destruct (empty left), (empty right); simpl;
      try (split; [discriminate | intros (H1 & H2 & _); discriminate]).
    split.
    + intros E. destruct (merge_raise _ _ _ _ E) as [[_ H]|[[H _]|[H _]]];
        [auto | discriminate | discriminate].
    + intros (_ & _ & H). unfold merge.
      destruct (index_of on (columns left)) as [i|] eqn:Ei; [|reflexivity].
      destruct (index_of on (columns right)) as [j|] eqn:Ej; [|reflexivity].
      exfalso. destruct H as [H|H]; apply index_of_mem in H; congruence.
  - intros i j Hl Hr Hi Hj.
    rewrite (join_left_merge left right on Hl Hr). unfold merge. rewrite Hi, Hj.
    split.
    + intros (Hnum & Hint & Hstr).
      assert (E : keys_incompatible (map (cell i) (rows left))
                                    (map (cell j) (rows right)) = true).
      { unfold keys_incompatible.
        destruct (map (cell i) (rows left)) as [|a l]; [discriminate Hnum|].
        destruct (map (cell j) (rows right)) as [|b r]; [discriminate Hstr|].
        now rewrite Hnum, Hint. }
      now rewrite E.
    + intros Hkind Hfresh.
      rewrite (keys_compatible _ _ Hkind).
      rewrite (labels_fresh_no_clash left right on j Hfresh (index_of_nth _ _ _ Hj)).
      eexists. reflexivity.
Qed.

Lemma join_left_raises_witness :
  join_left sample_rankings sample_comp "competitor_id"
  = Raise (KeyError "competitor_id") /\
  join_left sample_rankings string_keyed "competitor_id"
  = Raise (ValueError "competitor_id").
Proof.
  split.
  - apply (proj2 (proj1 (proj2 (join_left_raises sample_rankings sample_comp
                                  "competitor_id")))).
    repeat split. right. simpl. intuition discriminate.
  - apply (proj1 (proj2 (proj2 (join_left_raises sample_rankings string_keyed
                                  "competitor_id"))
                    0%nat 0%nat eq_refl eq_refl eq_refl eq_refl)).
    repeat split.
Defined.




(** * More on the filters *)

Lemma filter_idem {A : Type} (p : A -> bool) (l : list A) :
  filter p (filter p l) = filter p l.
Proof.
  apply filter_all. intros a Ha. apply filter_In in Ha. tauto.
Qed.

Lemma filter_by_cases (c : string) (applied : bool) (stored : value) (df : DataFrame) :
  (applied && truthy stored && negb (empty df) = false /\
   filter_by c applied stored df = Ok df) \/
  (applied = true /\ truthy stored = true /\ empty df = false /\
   ((exists i, index_of c (columns df) = Some i /\
               filter_by c applied stored df = Ok (select i stored df)) \/
    (~ In c (columns df) /\ filter_by c applied stored df = Raise (KeyError c)))).
Proof.
  destruct (applied && truthy stored && negb (empty df)) eqn:G.
  - right. apply andb_true_iff in G. destruct G as [G He].
    apply andb_true_iff in G. destruct G as [-> Ht].
    apply negb_true_iff in He. repeat split; try assumption.
    destruct (index_of c (columns df)) as [i|] eqn:Ei.
    + left. exists i. split; [reflexivity|]. now apply filter_by_on.
    + right. split; [now apply index_of_mem|].
      unfold filter_by. rewrite copy_eq, Ht, He. simpl.
      unfold column. now rewrite Ei.
  - left. split; [reflexivity|]. now apply filter_by_off.
Qed.

Lemma select_well_formed (i : nat) (x : value) (df : DataFrame) :
  well_formed df -> well_formed (select i x df).
Proof.
  unfold well_formed, select. simpl. intros H.
  apply Forall_forall. intros r Hr. apply filter_In in Hr.
  rewrite Forall_forall in H. now apply H.
Qed.

(** X8: whatever a filter returns has the columns of its input and a
    sub-list of its rows, in input order; it is well-formed when the input
    is; when the filter was active every returned row carries the stored
    value in the filtered column, so rows with a null there are dropped; and
    filtering the result again with the same state changes nothing. *)
Theorem filter_by_result (c : string) (applied : bool) (stored : value)
    (df out : DataFrame) :
  filter_by c applied stored df = Ok out ->
  columns out = columns df /\
  (exists p, rows out = filter p (rows df)) /\
  (well_formed df -> well_formed out) /\
  (applied && truthy stored && negb (empty df) = true ->
   forall i, index_of c (columns df) = Some i ->
             Forall (fun r => cell i r = stored /\ cell i r <> VNull) (rows out)) /\
  filter_by c applied stored out = Ok out.
Proof.
  intros E.
  destruct (filter_by_cases c applied stored df)
    as [[G E']|(-> & Ht & He & [(i & Hi & E')|[_ E']])];
    rewrite E' in E; try discriminate; injection E as <-.
  - repeat split.
    + exists (fun _ => true). symmetry. apply filter_true.
    + tauto.
    + rewrite G. discriminate.
    + exact E'.
  - repeat split.
    + eexists. reflexivity.
    + apply select_well_formed.
    + intros _ i' Hi'. rewrite Hi in Hi'. injection Hi' as <-.
      apply Forall_forall. intros r Hr. simpl in Hr. apply filter_In in Hr.
      destruct Hr as [_ Hr]. apply value_eqb_eq in Hr. split; [exact Hr|].
      rewrite Hr. intros ->. discriminate.
    + rewrite (filter_by_on c stored (select i stored df) i Ht Hi).
      unfold select. simpl. now rewrite filter_idem.
Qed.

Lemma filter_by_result_witness :
  exists out,
    filtered_df (session true (VStr "France") VNull) null_country = Ok out /\
    rows out = [ [VStr "Alice"; VStr "France"] ] /\
    filtered_df (session true (VStr "France") VNull) out = Ok out.
Proof.
  eexists. split; [reflexivity|]. split; [reflexivity|].
  exact (proj2 (proj2 (proj2 (proj2
           (filter_by_result "country" true (VStr "France") null_country _ eq_refl))))).
Defined.

(** X9: a filter raises only [KeyError], naming its column, and only when
    the filters are applied, the stored value is truthy and the frame is
    non-empty but lacks that column. *)
Theorem filter_by_raises (c : string) (applied : bool) (stored : value)
    (df : DataFrame) (e : exn) :
  filter_by c applied stored df = Raise e <->
  applied = true /\ truthy stored = true /\ empty df = false /\
  ~ In c (columns df) /\ e = KeyError c.
Proof.
  destruct (filter_by_cases c applied stored df)
    as [[G E']|(-> & Ht & He & [(i & Hi & E')|[Hn E']])]; rewrite E'.
  - split; [discriminate|]. intros (-> & Ht & He & _).
    rewrite Ht, He in G. discriminate.
  - split; [discriminate|]. intros (_ & _ & _ & Hn & _).
    apply index_of_mem in Hn. congruence.
  - split.
    + intros E. injection E as <-. tauto.
    + intros (_ & _ & _ & _ & ->). reflexivity.
Qed.

Lemma filter_by_raises_witness :
  filtered_comp (session true VNull (VStr "ATP")) sample_merged
  = Raise (KeyError "category_name").
Proof.
  apply (proj2 (filter_by_raises "category_name" true (VStr "ATP") sample_merged _)).
  repeat split. simpl. intuition discriminate.
Defined.

(** * More on the top 10 *)

Lemma sort_values_type_error `{ArgSort} (df : DataFrame) (by_ : string) (i : nat) :
  index_of by_ (columns df) = Some i ->
  comparable (dropna (map (cell i) (rows df))) = false ->
  sort_values df by_ = Raise TypeError.
Proof.
  intros Hi Hc. unfold sort_values. rewrite Hi. cbv zeta.
  rewrite dropna_positions, Hc. reflexivity.
Qed.

Lemma sort_values_cases `{ArgSort} (df : DataFrame) (by_ : string) :
  (~ In by_ (columns df) /\ sort_values df by_ = Raise (KeyError by_)) \/
  (exists i, index_of by_ (columns df) = Some i /\
             comparable (dropna (map (cell i) (rows df))) = false /\
             sort_values df by_ = Raise TypeError) \/
  (exists i out,
     index_of by_ (columns df) = Some i /\
     comparable (dropna (map (cell i) (rows df))) = true /\
     sort_values df by_ = Ok {| columns := columns df; rows := out |} /\
     Permutation out (rows df)).
Proof.
  destruct (index_of by_ (columns df)) as [i|] eqn:Hi.
  - right. destruct (comparable (dropna (map (cell i) (rows df)))) eqn:Hc.
    + right. destruct (sort_values_spec i (rows df) Hc (columns df) by_ Hi)
        as (out & _ & _ & Hsv & Hperm & _).
      exists i, out. destruct df as [cols rs]. simpl in *. auto.
    + left. exists i. repeat split; try assumption.
      now apply (sort_values_type_error df by_ i).
  - left. split; [now apply index_of_mem|].
    unfold sort_values. now rewrite Hi.
Qed.

Lemma firstn_In_sub {A : Type} (n : nat) (l : list A) (x : A) :
  In x (firstn n l) -> In x l.
Proof.
  intros H. rewrite <- (firstn_skipn n l). apply in_or_app. now left.
Qed.

Lemma Permutation_nonempty {A : Type} (l l' : list A) :
  Permutation l l' -> l' <> [] -> l <> [].
Proof.
  intros Hp Hne ->. apply Permutation_nil in Hp. congruence.
Qed.

Lemma empty_false (df : DataFrame) :
  empty df = false <-> columns df <> [] /\ rows df <> [].
Proof.
  unfold empty. destruct (columns df), (rows df); split; intros H;
    try discriminate; try (destruct H; congruence).
  split; discriminate.
Qed.

(** X10: when the top-10 step builds a table, the table has the columns of
    the merged frame, the smaller of 10 and the number of its rows, only rows
    taken from it, and is never empty, so the bar chart's guard lets it
    through; and no table is built exactly when the merged frame is empty. *)
Theorem top10_shape `{ArgSort} (df : DataFrame) (top : option DataFrame) :
  top10 df = Ok top ->
  (top = None <-> empty df = true) /\
  bar_chart_data top = top /\
  forall t, top = Some t ->
    columns t = columns df /\
    List.length (rows t) = Nat.min 10 (List.length (rows df)) /\
    incl (rows t) (rows df) /\
    empty t = false.
Proof.
  unfold top10. destruct (empty df) eqn:He; simpl; intros E.
  - injection E as <-. repeat split; try reflexivity; discriminate.
  - destruct (sort_values_cases df "rank")
      as [[_ Hs]|[(i & _ & _ & Hs)|(i & out & _ & _ & Hs & Hperm)]];
      rewrite Hs in E; simpl in E; try discriminate.
    injection E as <-.
    assert (Hshape : columns (head 10 {| columns := columns df; rows := out |}) = columns df /\
              List.length (rows (head 10 {| columns := columns df; rows := out |}))
              = Nat.min 10 (List.length (rows df)) /\
              incl (rows (head 10 {| columns := columns df; rows := out |})) (rows df) /\
              empty (head 10 {| columns := columns df; rows := out |}) = false).
    { apply empty_false in He. destruct He as [Hc Hr].
      unfold head. cbn [rows columns]. repeat split.
      - rewrite length_firstn. now rewrite (Permutation_length Hperm).
      - intros r Hr'. apply (Permutation_in r Hperm). eapply firstn_In_sub. exact Hr'.
      - apply empty_false. cbn [rows columns]. split; [exact Hc|].
        pose proof (Permutation_nonempty _ _ Hperm Hr) as Hout.
        destruct out; [congruence | discriminate]. }
    split; [split; discriminate|]. split.
    + destruct Hshape as (_ & _ & _ & Hne).
      unfold bar_chart_data. now rewrite Hne.
    + intros t Ht. injection Ht as <-. exact Hshape.
Qed.

Lemma top10_shape_witness :
  exists t,
    @top10 reversing_argsort sample_merged = Ok (Some t) /\
    List.length (rows t) = 3%nat /\
    bar_chart_data (Some t) = Some t.
Proof.
  eexists. split; [reflexivity|].
  destruct (@top10_shape reversing_argsort sample_merged _ eq_refl)
    as (_ & Hbar & Hshape).
  split; [|exact Hbar].
  exact (proj1 (proj2 (Hshape _ eq_refl))).
Defined.

(** X11: the top-10 step raises only on a non-empty merged frame: [KeyError]
    when it has no rank column, [TypeError] when the non-null ranks mix
    integers and strings; nothing else. *)
Theorem top10_raises `{ArgSort} (df : DataFrame) (e : exn) :
  top10 df = Raise e <->
  empty df = false /\
  ((~ In "rank" (columns df) /\ e = KeyError "rank") \/
   (exists i, index_of "rank" (columns df) = Some i /\
              comparable (dropna (map (cell i) (rows df))) = false /\
              e = TypeError)).
Proof.
  unfold top10. destruct (empty df) eqn:He; simpl.
  - split; [discriminate|]. intros [? _]. discriminate.
  - destruct (sort_values_cases df "rank")
      as [[Hn Hs]|[(i & Hi & Hc & Hs)|(i & out & Hi & Hc & Hs & _)]];
      rewrite Hs; simpl.
    + split.
      * intros E. injection E as <-. split; [reflexivity|]. now left.
      * intros [_ [[_ ->]|(i & Hi & _)]]; [reflexivity|].
        apply index_of_mem in Hn. congruence.
    + split.
      * intros E. injection E as <-. split; [reflexivity|]. right. eauto.
      * intros [_ [[Hn _]|(i' & _ & _ & ->)]]; [|reflexivity].
        apply index_of_mem in Hn. congruence.
    + split; [discriminate|].
      intros [_ [[Hn _]|(i' & Hi' & Hc' & _)]].
      * apply index_of_mem in Hn. congruence.
      * rewrite Hi in Hi'. injection Hi' as <-. congruence.
Qed.

Lemma top10_raises_witness :
  @top10 stable_argsort mixed_ranks = Raise TypeError /\
  @top10 stable_argsort sample_comp = Raise (KeyError "rank").
Proof.
  split.
  - apply (proj2 (@top10_raises stable_argsort mixed_ranks TypeError)).
    split; [reflexivity|]. right. exists 1%nat. repeat split.
  - apply (proj2 (@top10_raises stable_argsort sample_comp (KeyError "rank"))).
    split; [reflexivity|]. left. split; [|reflexivity].
    simpl. intuition discriminate.
Defined.

Lemma sort_values_numeric `{ArgSort} (df : DataFrame) (by_ : string) (i : nat) :
  index_of by_ (columns df) = Some i ->
  Forall (fun r => is_str (cell i r) = false) (rows df) ->
  exists by_rank,
    sort_values df by_ = Ok {| columns := columns df; rows := by_rank |} /\
    Permutation by_rank (rows df) /\
    StronglySorted (fun r1 r2 => rank_le (cell i r1) (cell i r2)) by_rank.
Proof.
  intros Hi Hnum.
  assert (Hnum' : Forall (fun v => is_str v = false) (map (cell i) (rows df))).
  { apply Forall_forall. intros v Hv. apply in_map_iff in Hv.
    destruct Hv as (r & <- & Hr). rewrite Forall_forall in Hnum. now apply Hnum. }
  destruct (sort_values_spec i (rows df) (numeric_comparable _ Hnum')
              (columns df) by_ Hi)
    as (out & xs & ys & Hsv & Hperm & Hcells & Hsorted & Hnn & Hnull & _).
  exists out. split; [|split; [exact Hperm|]].
  - destruct df as [cols rs]. exact Hsv.
  - apply Sorted_StronglySorted.
    + intros r1 r2 r3. apply rank_le_trans.
    + apply Sorted_map. rewrite Hcells.
      apply sorted_ints_then_nulls; [exact Hsorted| |exact Hnull].
      apply Forall_forall. intros v Hv.
      assert (Hin : In v (map (cell i) (rows df))).
      { apply (Permutation_in v (Permutation_map (cell i) Hperm)).
        rewrite Hcells. apply in_or_app. now left. }
      rewrite Forall_forall in Hnum', Hnn.
      specialize (Hnum' v Hin). specialize (Hnn v Hv). now destruct v.
Qed.

Lemma StronglySorted_app_cross {A : Type} (R : A -> A -> Prop) (l1 l2 : list A) :
  StronglySorted R (l1 ++ l2) ->
  forall a b, In a l1 -> In b l2 -> R a b.
Proof.
  induction l1 as [|x l1 IH]; simpl; intros Hs a b Ha Hb; [destruct Ha|].
  apply StronglySorted_inv in Hs. destruct Hs as [Hs Hall].
  destruct Ha as [<-|Ha].
  - rewrite Forall_forall in Hall. apply Hall. apply in_or_app. now right.
  - now apply IH.
Qed.

(** X12: with an integer-or-null rank column, no row left out of the top-10
    table ranks before a row shown in it: the table and the rows left out
    together are the rows of the merged frame, and every shown row is
    ascending-nulls-last below or equal to every row left out. *)
Theorem top10_best_ranks `{ArgSort} (df : DataFrame) (i : nat) :
  empty df = false ->
  index_of "rank" (columns df) = Some i ->
  Forall (fun r => is_str (cell i r) = false) (rows df) ->
  exists t rest,
    top10 df = Ok (Some t) /\
    Permutation (rows t ++ rest) (rows df) /\
    forall r r', In r (rows t) -> In r' rest -> rank_le (cell i r) (cell i r').
Proof.
  intros He Hi Hnum.
  destruct (sort_values_numeric df "rank" i Hi Hnum) as (by_rank & Hsv & Hperm & Hs).
  exists (head 10 {| columns := columns df; rows := by_rank |}), (skipn 10 by_rank).
  unfold head. cbn [rows columns]. split; [|split].
  - unfold top10. rewrite He, Hsv. reflexivity.
  - now rewrite firstn_skipn.
  - apply StronglySorted_app_cross. now rewrite firstn_skipn.
Qed.

Lemma top10_best_ranks_witness :
  exists t rest,
    @top10 stable_argsort twelve_ranked = Ok (Some t) /\
    Permutation (rows t ++ rest) (rows twelve_ranked) /\
    forall r r', In r (rows t) -> In r' rest -> rank_le (cell 1 r) (cell 1 r').
Proof.
  apply (@top10_best_ranks stable_argsort twelve_ranked 1);
    [reflexivity | reflexivity | repeat constructor].
Defined.

Example top10_twelve_ranked :
  option_map (fun t => map (cell 1) (rows t))
    (match @top10 stable_argsort twelve_ranked with Ok t => t | Raise _ => None end)
  = Some [VInt 1; VInt 2; VInt 3; VInt 4; VInt 5; VInt 6; VInt 7; VInt 8; VInt 9; VInt 11].
Proof. reflexivity. Qed.

(** * The select boxes *)

Lemma unique_spec (l : list value) :
  NoDup (unique l) /\ forall v, In v (unique l) <-> In v l.
Proof.
  induction l as [|x t [Hn Hi]]; simpl.
  - split; [constructor | tauto].
  - split.
    + constructor.
      * intros Hin. apply filter_In in Hin. destruct Hin as [_ E].
        now rewrite (proj2 (value_eqb_eq x x) eq_refl) in E.
      * now apply NoDup_filter.
    + intros v. rewrite filter_In, Hi. split.
      * tauto.
      * intros [->|Hv]; [now left|].
        destruct (value_eqb x v) eqn:E.
        -- left. now apply value_eqb_eq.
        -- right. split; [exact Hv | reflexivity].
Qed.

Lemma dropna_In (l : list value) (v : value) :
  In v (dropna l) <-> In v l /\ v <> VNull.
Proof.
  unfold dropna. rewrite filter_In. split; intros [H1 H2]; split; try exact H1.
  - intros ->. discriminate.
  - now destruct v.
Qed.

Lemma comparable_members (l l' : list value) :
  (forall v, In v l' -> In v l) -> comparable l = true -> comparable l' = true.
Proof.
  unfold comparable. intros Hsub H. apply orb_true_iff in H. apply orb_true_iff.
  destruct H as [H|H]; [left|right]; rewrite forallb_forall in *; auto.
Qed.

Lemma insert_perm (x : value) (l : list value) : Permutation (insert x l) (x :: l).
Proof.
  induction l as [|y t IH]; simpl; [reflexivity|].
  destruct (value_le x y); [reflexivity|].
  rewrite IH. apply perm_swap.
Qed.

Lemma insert_sorted (x : value) (l : list value) :
  (forall y, In y l -> value_le x y = true \/ value_le y x = true) ->
  Sorted (fun a b => value_le a b = true) l ->
  Sorted (fun a b => value_le a b = true) (insert x l).
Proof.
  induction l as [|y t IH]; simpl; intros Htot Hs.
  - repeat constructor.
  - inversion Hs as [|? ? Hs' Hhd]; subst.
    destruct (value_le x y) eqn:E.
    + constructor; [exact Hs|]. now constructor.
    + constructor.
      * apply IH; [|exact Hs']. intros z Hz. apply Htot. now right.
      * assert (Hyx : value_le y x = true).
        { destruct (Htot y (or_introl eq_refl)); congruence. }
        destruct t as [|z t]; simpl; [now constructor|].
        destruct (value_le x z); constructor; [exact Hyx|].
        now inversion Hhd.
Qed.

Lemma sorted_spec (l : list value) :
  comparable l = true ->
  exists out,
    sorted l = Ok out /\ Permutation out l /\
    Sorted (fun a b => value_le a b = true) out.
Proof.
  intros Hc. unfold sorted. rewrite Hc. eexists. split; [reflexivity|].
  assert (Htot : forall a b, In a l -> In b l ->
                             value_le a b = true \/ value_le b a = true)
    by (intros a b; now apply comparable_total).
  clear Hc. induction l as [|x t IH]; simpl.
  - split; constructor.
  - destruct IH as [Hp Hs]; [intros a b Ha Hb; apply Htot; now right|].
    split.
    + rewrite insert_perm. now constructor.
    + apply insert_sorted; [|exact Hs].
      intros y Hy. apply Htot; [now left|].
      right. now apply (Permutation_in y Hp).
Qed.

Lemma options_cases (df : DataFrame) (c : string) :
  empty df = false ->
  (~ In c (columns df) /\ options df c = Raise (KeyError c)) \/
  (exists i, index_of c (columns df) = Some i /\
             comparable (dropna (map (cell i) (rows df))) = false /\
             options df c = Raise TypeError) \/
  (exists i out,
     index_of c (columns df) = Some i /\
     comparable (dropna (map (cell i) (rows df))) = true /\
     options df c = Ok out /\
     Permutation out (unique (dropna (map (cell i) (rows df)))) /\
     Sorted (fun a b => value_le a b = true) out).
Proof.
  intros He. unfold options, column. rewrite He. simpl.
  destruct (index_of c (columns df)) as [i|] eqn:Hi.
  - right. simpl.
    destruct (comparable (dropna (map (cell i) (rows df)))) eqn:Hc.
    + right.
      assert (Hu : comparable (unique (dropna (map (cell i) (rows df)))) = true).
      { apply (comparable_members _ _ (fun v => proj1 (proj2 (unique_spec _) v)) Hc). }
      destruct (sorted_spec _ Hu) as (out & E & Hp & Hs).
      exists i, out. repeat split; assumption.
    + left. exists i. split; [reflexivity|]. split; [exact Hc|].
      unfold sorted.
      destruct (comparable (unique (dropna (map (cell i) (rows df))))) eqn:Hu;
        [|reflexivity].
      rewrite (comparable_members _ _ (fun v => proj2 (proj2 (unique_spec _) v)) Hu) in Hc.
      discriminate.
  - left. split; [now apply index_of_mem | reflexivity].
Qed.

(** X13: on a non-empty frame whose column is there and does not mix integers
    with strings, the list of options of a select box is in ascending order,
    has no value twice and no null, and holds exactly the non-null values
    that occur in the column. *)
Theorem options_result (df : DataFrame) (c : string) (i : nat) :
  empty df = false ->
  index_of c (columns df) = Some i ->
  comparable (dropna (map (cell i) (rows df))) = true ->
  exists out,
    options df c = Ok out /\
    Sorted (fun a b => value_le a b = true) out /\
    NoDup out /\
    forall v, In v out <-> v <> VNull /\ exists r, In r (rows df) /\ cell i r = v.
Proof.
  intros He Hi Hc.
  destruct (options_cases df c He)
    as [[Hn _]|[(i' & Hi' & Hc' & _)|(i' & out & Hi' & _ & E & Hp & Hs)]].
  - apply index_of_mem in Hn. congruence.
  - rewrite Hi in Hi'. injection Hi' as <-. congruence.
  - rewrite Hi in Hi'. injection Hi' as <-.
    destruct (unique_spec (dropna (map (cell i) (rows df)))) as [Hnd Hin].
    exists out. repeat split; try assumption.
    + apply (Permutation_NoDup (Permutation_sym Hp) Hnd).
    + apply (Permutation_in v Hp), Hin, dropna_In in H. tauto.
    + apply (Permutation_in v Hp), Hin, dropna_In in H.
      destruct H as [H _]. apply in_map_iff in H. destruct H as (r & <- & Hr). eauto.
    + intros [Hv (r & Hr & <-)].
      apply (Permutation_in _ (Permutation_sym Hp)), Hin, dropna_In.
      split; [|exact Hv]. now apply in_map.
Qed.

Lemma options_result_witness :
  exists out,
    options null_country "country" = Ok out /\
    NoDup out /\
    (In (VStr "France") out <->
     VStr "France" <> VNull /\
     exists r, In r (rows null_country) /\ cell 1 r = VStr "France").
Proof.
  destruct (options_result null_country "country" 1 eq_refl eq_refl eq_refl)
    as (out & E & _ & Hn & Hin).
  exists out. split; [exact E|]. split; [exact Hn | apply Hin].
Defined.

(** X14: building the options of a select box raises only on a non-empty
    frame: [KeyError] when the column is missing, [TypeError] when its
    non-null values mix integers and strings. *)
Theorem options_raises (df : DataFrame) (c : string) (e : exn) :
  options df c = Raise e <->
  empty df = false /\
  ((~ In c (columns df) /\ e = KeyError c) \/
   (exists i, index_of c (columns df) = Some i /\
              comparable (dropna (map (cell i) (rows df))) = false /\
              e = TypeError)).
Proof.
  destruct (empty df) eqn:He.
  - unfold options. rewrite He. simpl. split; [discriminate|].
    intros [? _]. discriminate.
  - destruct (options_cases df c He)
      as [[Hn E]|[(i & Hi & Hc & E)|(i & out & Hi & Hc & E & _)]]; rewrite E.
    + split.
      * intros H. injection H as <-. split; [reflexivity|]. now left.
      * intros [_ [[_ ->]|(i & Hi & _)]]; [reflexivity|].
        apply index_of_mem in Hn. congruence.
    + split.
      * intros H. injection H as <-. split; [reflexivity|]. right. eauto.
      * intros [_ [[Hn _]|(i' & _ & _ & ->)]]; [|reflexivity].
        apply index_of_mem in Hn. congruence.
    + split; [discriminate|].
      intros [_ [[Hn _]|(i' & Hi' & Hc' & _)]].
      * apply index_of_mem in Hn. congruence.
      * rewrite Hi in Hi'. injection Hi' as <-. congruence.
Qed.

Lemma options_raises_witness :
  options mixed_ranks "rank" = Raise TypeError /\
  options sample_comp "country" = Raise (KeyError "country").
Proof.
  split.
  - apply (proj2 (options_raises mixed_ranks "rank" TypeError)).
    split; [reflexivity|]. right. exists 1%nat. repeat split.
  - apply (proj2 (options_raises sample_comp "country" (KeyError "country"))).
    split; [reflexivity|]. left. split; [|reflexivity].
    simpl. intuition discriminate.
Defined.

Lemma contains_In (x : value) (l : list value) : contains x l = true <-> In x l.
Proof.
  unfold contains. rewrite existsb_exists. split.
  - intros (y & Hy & E). apply value_eqb_eq in E. now subst.
  - intros H. exists x. split; [exact H | now apply value_eqb_eq].
Qed.

Lemma list_index_spec (x : value) (l : list value) :
  match list_index x l with
  | Some i => nth_error l i = Some x /\
              forall k, (k < i)%nat -> nth_error l k <> Some x
  | None => ~ In x l
  end.
Proof.
  induction l as [|y t IH]; simpl; [tauto|].
  destruct (value_eqb y x) eqn:E.
  - apply value_eqb_eq in E. subst. split; [reflexivity|]. intros k Hk. lia.
  - assert (Hne : y <> x).
    { intros ->. now rewrite (proj2 (value_eqb_eq x x) eq_refl) in E. }
    destruct (list_index x t) as [i|].
    + destruct IH as [Hi Hfirst]. split; [exact Hi|].
      intros [|k] Hk; simpl; [congruence|]. apply Hfirst. lia.
    + intros [H|H]; [congruence | tauto].
Qed.

(** X15: the position a select box opens on is always a valid position of a
    non-empty option list; when the filters are applied and the stored value
    is among the options it is the first position holding that value, so the
    box reopens on what was submitted; otherwise it is 0. *)
Theorem default_index_points_back (applied : bool) (stored : value)
    (option_list : list value) :
  (option_list <> [] ->
   (default_index applied stored option_list < List.length option_list)%nat) /\
  (applied = true -> In stored option_list ->
   nth_error option_list (default_index applied stored option_list) = Some stored /\
   forall k, (k < default_index applied stored option_list)%nat ->
             nth_error option_list k <> Some stored) /\
  (applied = false \/ ~ In stored option_list ->
   default_index applied stored option_list = 0%nat).
Proof.
  unfold default_index.
  pose proof (list_index_spec stored option_list) as Hspec.
  destruct (contains stored option_list) eqn:Hc.
  - apply contains_In in Hc.
    destruct (list_index stored option_list) as [i|]; [|contradiction].
    destruct Hspec as [Hi Hfirst]. split; [|split].
    + intros _. destruct applied; simpl.
      * apply nth_error_Some. congruence.
      * destruct option_list; [destruct Hc | simpl; lia].
    + intros -> _. split; [exact Hi | exact Hfirst].
    + intros [->|Hn]; [reflexivity | contradiction].
  - assert (Hn : ~ In stored option_list).
    { intros H. apply contains_In in H. congruence. }
    rewrite andb_false_r. split; [|split].
    + intros Hne. destruct option_list; [congruence | simpl; lia].
    + intros _ Hin. contradiction.
    + reflexivity.
Qed.

Lemma default_index_points_back_witness :
  nth_error [VStr "France"; VStr "Italy"; VStr "Spain"]
    (default_index true (VStr "Spain") [VStr "France"; VStr "Italy"; VStr "Spain"])
  = Some (VStr "Spain") /\
  default_index true (VStr "Peru") [VStr "France"; VStr "Italy"; VStr "Spain"] = 0%nat.
Proof.
  split.
  - apply (proj1 (proj2 (default_index_points_back true (VStr "Spain")
                           [VStr "France"; VStr "Italy"; VStr "Spain"]))).
    + reflexivity.
    + simpl. tauto.
  - apply (proj2 (proj2 (default_index_points_back true (VStr "Peru")
                           [VStr "France"; VStr "Italy"; VStr "Spain"]))).
    right. simpl. intuition discriminate.
Defined.

(** * Sessions *)

Lemma run_script_inv `{ArgSort} (connect : result Connection)
    (sess : option SessionState) (ui : Interaction) (s : SessionState) (p : Page) :
  run_script connect sess ui = Ok (s, p) ->
  exists t,
    load_data connect = Ok t /\
    options (df_competitors t) "country" = Ok (country_list p) /\
    options (df_category t) "category_name" = Ok (category_list p) /\
    s = sidebar ui (init_session sess) /\
    filtered_df s (df_merged t) = Ok (shown_rankings p) /\
    filtered_comp s (comp_info t) = Ok (shown_competitions p) /\
    top10 (df_merged t) = Ok (shown_top10 p) /\
    shown_venues p = venue_info t /\
    hist_data p = df_merged t.
Proof.
  unfold run_script. intros E.
  destruct (load_data connect) as [t|e] eqn:L; simpl in E; [|discriminate].
  destruct (options (df_competitors t) "country") eqn:O1; simpl in E; [|discriminate].
  destruct (options (df_category t) "category_name") eqn:O2; simpl in E; [|discriminate].
  destruct (filtered_df _ (df_merged t)) eqn:F1; simpl in E; [|discriminate].
  destruct (filtered_comp _ (comp_info t)) eqn:F2; simpl in E; [|discriminate].
  destruct (top10 (df_merged t)) as [top|e] eqn:T; simpl in E; [|discriminate].
  injection E as <- <-. exists t. simpl. repeat split; assumption.
Qed.

Lemma sidebar_clicked (ui : Interaction) (s : SessionState) :
  clicked ui = true -> sidebar ui s = sidebar ui initial_session.
Proof.
  unfold clicked, sidebar. destruct (submitted ui), (clear_filters ui);
    simpl; intros E; try reflexivity; discriminate.
Qed.

Lemma sidebar_idle (ui : Interaction) (s : SessionState) :
  clicked ui = false -> sidebar ui s = s.
Proof.
  unfold clicked, sidebar. destruct (submitted ui), (clear_filters ui);
    simpl; intros E; try reflexivity; discriminate.
Qed.

Lemma replay_last_click (uis : list Interaction) (s : SessionState) :
  replay uis s
  = match find clicked (rev uis) with
    | Some ui => sidebar ui initial_session
    | None => s
    end.
Proof.
  induction uis as [|ui uis IH] using rev_ind; [reflexivity|].
  unfold replay in *. rewrite fold_left_app, rev_app_distr. simpl.
  destruct (clicked ui) eqn:E.
  - now apply sidebar_clicked.
  - rewrite sidebar_idle by exact E. exact IH.
Qed.

Lemma run_session_replay `{ArgSort} (connect : result Connection)
    (uis : list Interaction) :
  forall sess sess' pages,
    run_session connect sess uis = Ok (sess', pages) ->
    List.length pages = List.length uis /\
    (uis <> [] -> sess' = Some (replay uis (init_session sess))).
Proof.
  induction uis as [|ui uis IH]; simpl; intros sess sess' pages E.
  - injection E as <- <-. split; [reflexivity | congruence].
  - destruct (run_script connect sess ui) as [[s1 p1]|e] eqn:E1; simpl in E; [|discriminate].
    destruct (run_session connect (Some s1) uis) as [[s2 ps]|e] eqn:E2;
      simpl in E; [|discriminate].
    injection E as <- <-. destruct (IH _ _ _ E2) as [Hlen Hst].
    destruct (run_script_inv _ _ _ _ _ E1) as (_ & _ & _ & _ & -> & _).
    split; [simpl; now rewrite Hlen|]. intros _.
    destruct uis as [|ui' uis].
    + simpl in E2. injection E2 as <- _. reflexivity.
    + rewrite Hst by discriminate. reflexivity.
Qed.

(** X16: a session keeps no history: after any non-empty series of runs
    that all complete, the session state is the one set by the last run in
    which a button was clicked (apply or clear), and the starting state when
    no button was clicked at all; it does not depend on the loaded data.
    There is one page per run. *)
Theorem session_last_click `{ArgSort} (connect : result Connection)
    (sess sess' : option SessionState) (uis : list Interaction) (pages : list Page) :
  uis <> [] ->
  run_session connect sess uis = Ok (sess', pages) ->
  List.length pages = List.length uis /\
  sess' = Some (match find clicked (rev uis) with
                | Some ui => sidebar ui initial_session
                | None => init_session sess
                end).
Proof.
  intros Hne E. destruct (run_session_replay connect uis _ _ _ E) as [Hlen Hst].
  split; [exact Hlen|]. rewrite (Hst Hne). now rewrite replay_last_click.
Qed.

Lemma session_last_click_witness :
  exists pages,
    @run_session stable_argsort (Ok sample_db) None browsing
    = Ok (Some (session true (VStr "Spain") VNull), pages) /\
    List.length pages = 4%nat.
Proof.
  destruct (@run_session stable_argsort (Ok sample_db) None browsing)
    as [[s ps]|e] eqn:E; [|vm_compute in E; discriminate].
  assert (Hne : browsing <> []) by discriminate.
  destruct (@session_last_click stable_argsort (Ok sample_db) None s browsing ps Hne E)
    as [Hlen ->].
  exists ps. split; [reflexivity | exact Hlen].
Defined.

Lemma sidebar_tidy (ui : Interaction) (s : SessionState) :
  tidy s -> tidy (sidebar ui s).
Proof.
  unfold tidy, sidebar. intros Hs.
  destruct (submitted ui), (clear_filters ui); simpl; auto; discriminate.
Qed.

Lemma replay_tidy (uis : list Interaction) (s : SessionState) :
  tidy s -> tidy (replay uis s).
Proof.
  unfold replay. revert s. induction uis as [|u us IH]; simpl; intros s Hs;
    [exact Hs|].
  apply IH. now apply sidebar_tidy.
Qed.

(** X17: the stored filter values never outlive the filters: from a fresh
    session, after any series of runs, a state with the filters off stores
    no country and no category. *)
Theorem session_stays_tidy `{ArgSort} (connect : result Connection)
    (uis : list Interaction) (s : SessionState) (pages : list Page) :
  run_session connect None uis = Ok (Some s, pages) ->
  filters_applied s = false ->
  submitted_country s = VNull /\ submitted_category s = VNull.
Proof.
  intros E. destruct uis as [|ui uis]; [simpl in E; discriminate|].
  destruct (run_session_replay connect (ui :: uis) _ _ _ E) as [_ Hst].
  specialize (Hst ltac:(discriminate)). injection Hst as ->.
  apply (replay_tidy (ui :: uis) (init_session None)).
  intros _. split; reflexivity.
Qed.

Lemma session_stays_tidy_witness :
  exists s pages,
    @run_session stable_argsort (Ok sample_db) None
      [click_apply (VStr "France") (VStr "ATP"); click_clear (VStr "Spain") VNull]
    = Ok (Some s, pages) /\
    submitted_country s = VNull /\ submitted_category s = VNull.
Proof.
  destruct (@run_session stable_argsort (Ok sample_db) None
              [click_apply (VStr "France") (VStr "ATP"); click_clear (VStr "Spain") VNull])
    as [[[s|] ps]|e] eqn:E; try (vm_compute in E; discriminate).
  exists s, ps. split; [reflexivity|].
  apply (@session_stays_tidy stable_argsort (Ok sample_db) _ s ps E).
  vm_compute in E. injection E as <- _. reflexivity.
Defined.

(** * More on whole runs *)

(** X18: besides the top 10, the venue table, the data of the histogram and
    the option lists of both select boxes are the same in any two completed
    runs over the same data, whatever the session state and the interaction:
    the filters reach only the ranking and competition tables. *)
Theorem unfiltered_parts `{ArgSort} (connect : result Connection)
    (sess1 sess2 : option SessionState) (ui1 ui2 : Interaction)
    (s1 s2 : SessionState) (p1 p2 : Page) :
  run_script connect sess1 ui1 = Ok (s1, p1) ->
  run_script connect sess2 ui2 = Ok (s2, p2) ->
  shown_venues p1 = shown_venues p2 /\
  hist_data p1 = hist_data p2 /\
  country_list p1 = country_list p2 /\
  category_list p1 = category_list p2.
Proof.
  intros E1 E2.
  destruct (run_script_inv _ _ _ _ _ E1) as (t1 & L1 & C1 & K1 & _ & _ & _ & _ & V1 & D1).
  destruct (run_script_inv _ _ _ _ _ E2) as (t2 & L2 & C2 & K2 & _ & _ & _ & _ & V2 & D2).
  rewrite L1 in L2. injection L2 as <-.
  rewrite C1 in C2. injection C2 as C2.
  rewrite K1 in K2. injection K2 as K2.
  repeat split; congruence.
Qed.

Lemma unfiltered_parts_witness :
  exists s1 p1 s2 p2,
    @run_script stable_argsort (Ok sample_db) None (click_apply (VStr "Spain") VNull)
    = Ok (s1, p1) /\
    @run_script stable_argsort (Ok sample_db) (Some s1) no_clicks = Ok (s2, p2) /\
    hist_data p1 = hist_data p2 /\ country_list p1 = country_list p2.
Proof.
  exists (session true (VStr "Spain") VNull). eexists.
  exists (session true (VStr "Spain") VNull). eexists.
  split; [vm_compute; reflexivity|]. split; [vm_compute; reflexivity|].
  refine (let H := @unfiltered_parts stable_argsort (Ok sample_db) None
                     (Some (session true (VStr "Spain") VNull))
                     (click_apply (VStr "Spain") VNull) no_clicks _ _ _ _ _ _ in
          conj (proj1 (proj2 H)) (proj1 (proj2 (proj2 H)))).
  - vm_compute. reflexivity.
  - vm_compute. reflexivity.
Defined.

Lemma filter_by_sub (c : string) (applied : bool) (stored : value)
    (df out : DataFrame) :
  filter_by c applied stored df = Ok out ->
  columns out = columns df /\ exists q, rows out = filter q (rows df).
Proof.
  intros E.
  destruct (filter_by_cases c applied stored df)
    as [[_ E']|(_ & _ & _ & [(i & _ & E')|[_ E']])];
    rewrite E' in E; try discriminate; injection E as <-.
  - split; [reflexivity|]. exists (fun _ => true). symmetry. apply filter_true.
  - split; [reflexivity|]. eexists. reflexivity.
Qed.

(** X19: in a completed run the ranking table has the columns of the merged
    frame and a sub-list of its rows, and the competition table likewise of
    the competition view; when the run ends with the filters off, and so in
    every run in which clear was clicked, both tables are the complete
    frames. *)
Theorem filtered_parts `{ArgSort} (connect : result Connection)
    (sess : option SessionState) (ui : Interaction) (s : SessionState) (p : Page) :
  run_script connect sess ui = Ok (s, p) ->
  exists t,
    load_data connect = Ok t /\
    columns (shown_rankings p) = columns (df_merged t) /\
    (exists q, rows (shown_rankings p) = filter q (rows (df_merged t))) /\
    columns (shown_competitions p) = columns (comp_info t) /\
    (exists q, rows (shown_competitions p) = filter q (rows (comp_info t))) /\
    (filters_applied s = false \/ clear_filters ui = true ->
     shown_rankings p = df_merged t /\ shown_competitions p = comp_info t).
Proof.
  intros E.
  destruct (run_script_inv _ _ _ _ _ E) as (t & L & _ & _ & Hs & F1 & F2 & _).
  exists t. split; [exact L|].
  destruct (filter_by_sub _ _ _ _ _ F1) as (Hc1 & Hr1).
  destruct (filter_by_sub _ _ _ _ _ F2) as (Hc2 & Hr2).
  do 4 (split; [assumption|]).
  intros Hoff'.
  assert (Hoff : filters_applied s = false).
  { destruct Hoff' as [Hoff'|Hoff']; [exact Hoff'|].
    rewrite Hs. unfold sidebar. now rewrite Hoff'. }
  unfold filtered_df in F1. unfold filtered_comp in F2. rewrite Hoff in F1, F2.
  rewrite filter_by_off in F1, F2 by reflexivity. split; congruence.
Qed.

Lemma filtered_parts_witness :
  exists s p t,
    @run_script stable_argsort (Ok sample_db)
      (Some (session true (VStr "Spain") (VStr "WTA")))
      (click_clear (VStr "Spain") (VStr "WTA")) = Ok (s, p) /\
    load_data (Ok sample_db) = Ok t /\
    shown_rankings p = df_merged t /\ shown_competitions p = comp_info t.
Proof.
  destruct (@run_script stable_argsort (Ok sample_db)
              (Some (session true (VStr "Spain") (VStr "WTA")))
              (click_clear (VStr "Spain") (VStr "WTA")))
    as [[s p]|e] eqn:E; [|vm_compute in E; discriminate].
  destruct (@filtered_parts stable_argsort _ _ _ s p E)
    as (t & L & _ & _ & _ & _ & Hfull).
  exists s, p, t. split; [reflexivity|]. split; [exact L|].
  apply Hfull. right. reflexivity.
Defined.

Lemma fetch_table_contract (connect : result Connection) (query : string) :
  driver_contract connect -> exists df, fetch_table connect query = Ok df.
Proof.
  intros Hd.
  destruct (get_connection_contract connect Hd) as [(conn & -> & _)|(msg & -> & _)].
  - unfold fetch_table. simpl. destruct (conn query) as [rs|e] eqn:Eq; [eauto|].
    destruct (proj2 Hd conn query eq_refl e Eq) as [msg ->]. eauto.
  - eexists. reflexivity.
Qed.

Lemma load_data_raise (connect : result Connection) (e : exn) :
  driver_contract connect ->
  load_data connect = Raise e ->
  exists k, In k ["competitor_id"; "complex_id"; "category_id"] /\
            (e = KeyError k \/ e = ValueError k \/ e = MergeError).
Proof.
  intros Hd. unfold load_data.
  destruct (get_connection_contract connect Hd) as [(conn & Hc & ->)|(msg & Hc & ->)];
    simpl; [|discriminate].
  destruct (fetch_table_contract connect "SELECT * FROM competitors" Hd) as [d1 ->].
  destruct (fetch_table_contract connect "SELECT * FROM competitor_rankings" Hd) as [d2 ->].
  destruct (fetch_table_contract connect "SELECT * FROM complexes" Hd) as [d3 ->].
  destruct (fetch_table_contract connect "SELECT * FROM venues" Hd) as [d4 ->].
  destruct (fetch_table_contract connect "SELECT * FROM categories" Hd) as [d5 ->].
  destruct (fetch_table_contract connect "SELECT * FROM competitions" Hd) as [d6 ->].
  simpl.
  destruct (join_left d2 d1 "competitor_id") as [m|e1] eqn:J1; simpl.
  2:{ intros E. injection E as <-. apply join_left_raise in J1.
      eexists. split; [|exact J1]. simpl; tauto. }
  destruct (join_left d4 d3 "complex_id") as [v|e2] eqn:J2; simpl.
  2:{ intros E. injection E as <-. apply join_left_raise in J2.
      eexists. split; [|exact J2]. simpl; tauto. }
  destruct (join_left d6 d5 "category_id") as [c|e3] eqn:J3; simpl.
  2:{ intros E. injection E as <-. apply join_left_raise in J3.
      eexists. split; [|exact J3]. simpl; tauto. }
  discriminate.
Qed.

Lemma options_raise (df : DataFrame) (c : string) (e : exn) :
  options df c = Raise e -> e = TypeError \/ e = KeyError c.
Proof.
  destruct (empty df) eqn:He.
  - unfold options. rewrite He. discriminate.
  - destruct (options_cases df c He)
      as [[_ E]|[(i & _ & _ & E)|(i & out & _ & _ & E & _)]]; rewrite E;
      intros H; try discriminate; injection H as <-; tauto.
Qed.

Lemma filter_by_raise (c : string) (applied : bool) (stored : value)
    (df : DataFrame) (e : exn) :
  filter_by c applied stored df = Raise e -> e = KeyError c.
Proof.
  destruct (filter_by_cases c applied stored df)
    as [[_ E]|(_ & _ & _ & [(i & _ & E)|[_ E]])]; rewrite E;
    intros H; try discriminate. now injection H as <-.
Qed.

Lemma top10_raise `{ArgSort} (df : DataFrame) (e : exn) :
  top10 df = Raise e -> e = TypeError \/ e = KeyError "rank".
Proof.
  unfold top10. destruct (negb (empty df)); [|discriminate].
  destruct (sort_values_cases df "rank")
    as [[_ E]|[(i & _ & _ & E)|(i & out & _ & _ & E & _)]]; rewrite E; simpl;
    intros Hr; try discriminate; injection Hr as <-; tauto.
Qed.

(** X20: with a driver that fails only with [pymysql.Error], a run of the
    script never ends in a database error: when it raises at all, it raises
    [TypeError], the [MergeError] or the [ValueError] of one of the three
    merges, or a [KeyError] for one of the six column names the script
    looks up. *)
Theorem run_script_raises `{ArgSort} (connect : result Connection)
    (sess : option SessionState) (ui : Interaction) (e : exn) :
  driver_contract connect ->
  run_script connect sess ui = Raise e ->
  is_pymysql e = false /\
  (e = TypeError \/ e = MergeError \/
   (exists k, e = ValueError k /\
              In k ["competitor_id"; "complex_id"; "category_id"]) \/
   exists k, e = KeyError k /\
             In k ["competitor_id"; "complex_id"; "category_id";
                   "country"; "category_name"; "rank"]).
Proof.
  intros Hd E.
  assert (Hcases : e = TypeError \/ e = MergeError \/
            (exists k, e = ValueError k /\
                       In k ["competitor_id"; "complex_id"; "category_id"]) \/
            exists k, e = KeyError k /\
                      In k ["competitor_id"; "complex_id"; "category_id";
                            "country"; "category_name"; "rank"]).
  { unfold run_script in E.
    destruct (load_data connect) as [t|e0] eqn:L; simpl in E.
    2:{ injection E as <-.
        destruct (load_data_raise connect e0 Hd L) as (k & Hk & [->|[->| ->]]).
        - right. right. right. exists k. split; [reflexivity|]. simpl in *. tauto.
        - right. right. left. exists k. split; [reflexivity | exact Hk].
        - right. now left. }
    destruct (options (df_competitors t) "country") eqn:O1; simpl in E.
    2:{ injection E as <-. destruct (options_raise _ _ _ O1) as [->| ->]; [now left|].
        right. right. right. eexists. split; [reflexivity | simpl; tauto]. }
    destruct (options (df_category t) "category_name") eqn:O2; simpl in E.
    2:{ injection E as <-. destruct (options_raise _ _ _ O2) as [->| ->]; [now left|].
        right. right. right. eexists. split; [reflexivity | simpl; tauto]. }
    destruct (filtered_df _ (df_merged t)) eqn:F1; simpl in E.
    2:{ injection E as <-. apply filter_by_raise in F1. subst.
        right. right. right. eexists. split; [reflexivity | simpl; tauto]. }
    destruct (filtered_comp _ (comp_info t)) eqn:F2; simpl in E.
    2:{ injection E as <-. apply filter_by_raise in F2. subst.
        right. right. right. eexists. split; [reflexivity | simpl; tauto]. }
    destruct (top10 (df_merged t)) as [top|e0] eqn:T; simpl in E; [discriminate|].
    injection E as <-. destruct (top10_raise _ _ T) as [->| ->]; [now left|].
    right. right. right. eexists. split; [reflexivity | simpl; tauto]. }
  split; [|exact Hcases].
  destruct Hcases as [->|[->|[(k & -> & _)|(k & -> & _)]]]; reflexivity.
Qed.

Lemma run_script_raises_witness :
  (@run_script stable_argsort (Ok no_country_db) None no_clicks
   = Raise (KeyError "country") /\
   is_pymysql (KeyError "country") = false) /\
  (@run_script stable_argsort (Ok mixed_keys_db) None no_clicks
   = Raise (ValueError "competitor_id") /\
   is_pymysql (ValueError "competitor_id") = false).
Proof.
  assert (Hd : driver_contract (Ok no_country_db)).
  { split.
    - intros e E. discriminate.
    - intros conn query E e. injection E as <-. unfold no_country_db.
      destruct (String.eqb query _); discriminate. }
  assert (Hm : driver_contract (Ok mixed_keys_db)).
  { split.
    - intros e E. discriminate.
    - intros conn query E e. injection E as <-. unfold mixed_keys_db.
      destruct (String.eqb query _); [discriminate|].
      destruct (String.eqb query _); discriminate. }
  split; (split; [reflexivity|]).
  - exact (proj1 (@run_script_raises stable_argsort (Ok no_country_db) None no_clicks
                    (KeyError "country") Hd eq_refl)).
  - exact (proj1 (@run_script_raises stable_argsort (Ok mixed_keys_db) None no_clicks
                    (ValueError "competitor_id") Hm eq_refl)).
Defined.

Lemma load_data_inv (conn : Connection) (t : Tables) :
  load_data (Ok conn) = Ok t ->
  fetch_table (Ok conn) "SELECT * FROM competitors" = Ok (df_competitors t) /\
  fetch_table (Ok conn) "SELECT * FROM competitor_rankings" = Ok (df_rankings t) /\
  fetch_table (Ok conn) "SELECT * FROM complexes" = Ok (df_complexes t) /\
  fetch_table (Ok conn) "SELECT * FROM venues" = Ok (df_venues t) /\
  fetch_table (Ok conn) "SELECT * FROM categories" = Ok (df_category t) /\
  fetch_table (Ok conn) "SELECT * FROM competitions" = Ok (df_competition t) /\
  join_left (df_rankings t) (df_competitors t) "competitor_id" = Ok (df_merged t) /\
  join_left (df_venues t) (df_complexes t) "complex_id" = Ok (venue_info t) /\
  join_left (df_competition t) (df_category t) "category_id" = Ok (comp_info t).
Proof.
  unfold load_data. simpl. intros E.
  destruct (fetch_table (Ok conn) "SELECT * FROM competitors") as [d1|] eqn:E1;
    simpl in E; [|discriminate].
  destruct (fetch_table (Ok conn) "SELECT * FROM competitor_rankings") as [d2|] eqn:E2;
    simpl in E; [|discriminate].
  destruct (fetch_table (Ok conn) "SELECT * FROM complexes") as [d3|] eqn:E3;
    simpl in E; [|discriminate].
  destruct (fetch_table (Ok conn) "SELECT * FROM venues") as [d4|] eqn:E4;
    simpl in E; [|discriminate].
  destruct (fetch_table (Ok conn) "SELECT * FROM categories") as [d5|] eqn:E5;
    simpl in E; [|discriminate].
  destruct (fetch_table (Ok conn) "SELECT * FROM competitions") as [d6|] eqn:E6;
    simpl in E; [|discriminate].
  destruct (join_left d2 d1 "competitor_id") as [m|] eqn:J1; simpl in E; [|discriminate].
  destruct (join_left d4 d3 "complex_id") as [v|] eqn:J2; simpl in E; [|discriminate].
  destruct (join_left d6 d5 "category_id") as [c|] eqn:J3; simpl in E; [|discriminate].
  injection E as <-. simpl. repeat split; assumption.
Qed.

Lemma gives_nothing_nil (conn : Connection) (query : string) (df : DataFrame) :
  gives_nothing conn query ->
  fetch_table (Ok conn) query = Ok df -> df = DataFrame_nil.
Proof.
  unfold fetch_table. simpl. intros [[msg ->]| ->] E; now injection E as <-.
Qed.

(** X21: over a working connection, a table whose query fails or returns no
    row comes back as the empty frame, and the view joined from it is the
    empty frame as well, without any exception: rankings or competitors for
    the merged rankings, venues or complexes for the venue view, competitions
    or categories for the competition view. *)
Theorem load_data_missing_table (conn : Connection) (t : Tables) :
  load_data (Ok conn) = Ok t ->
  (gives_nothing conn "SELECT * FROM competitor_rankings" \/
   gives_nothing conn "SELECT * FROM competitors" ->
   df_merged t = DataFrame_nil) /\
  (gives_nothing conn "SELECT * FROM venues" \/
   gives_nothing conn "SELECT * FROM complexes" ->
   venue_info t = DataFrame_nil) /\
  (gives_nothing conn "SELECT * FROM competitions" \/
   gives_nothing conn "SELECT * FROM categories" ->
   comp_info t = DataFrame_nil).
Proof.
  intros L.
  destruct (load_data_inv conn t L)
    as (E1 & E2 & E3 & E4 & E5 & E6 & J1 & J2 & J3).
  repeat split.
  - intros [G|G].
    + rewrite (gives_nothing_nil _ _ _ G E2) in J1.
      rewrite join_left_empty in J1 by (now left). congruence.
    + rewrite (gives_nothing_nil _ _ _ G E1) in J1.
      rewrite join_left_empty in J1 by (now right). congruence.
  - intros [G|G].
    + rewrite (gives_nothing_nil _ _ _ G E4) in J2.
      rewrite join_left_empty in J2 by (now left). congruence.
    + rewrite (gives_nothing_nil _ _ _ G E3) in J2.
      rewrite join_left_empty in J2 by (now right). congruence.
  - intros [G|G].
    + rewrite (gives_nothing_nil _ _ _ G E6) in J3.
      rewrite join_left_empty in J3 by (now left). congruence.
    + rewrite (gives_nothing_nil _ _ _ G E5) in J3.
      rewrite join_left_empty in J3 by (now right). congruence.
Qed.

Lemma load_data_missing_table_witness :
  exists t, load_data (Ok sample_db) = Ok t /\ venue_info t = DataFrame_nil.
Proof.
  destruct (load_data (Ok sample_db)) as [t|e] eqn:L; [|vm_compute in L; discriminate].
  exists t. split; [reflexivity|].
  apply (proj1 (proj2 (load_data_missing_table sample_db t L))).
  right. left. eexists. reflexivity.
Defined.
